(** * Budgeting calculator: income, tax, ledgers and projection

    A shallow embedding of the calculation engine of [frontend/script.js]
    (the functions [getAnnualIncome], [calculateLocally],
    [calculateAnnualTax], the two ledgers with their add and remove
    handlers, [getDisposableMonthly] and [buildProjectionSeries]), followed
    by the properties of the engine.

    Conventions of the embedding.
    - A JavaScript number is a [number]: [NaN], the two infinities, or a
      finite value.  Finite values are exact rationals ([Qc]), so the
      arithmetic of the model has no rounding, no overflow and no
      underflow, and the two zeros are one.
    - A DOM text field that the code reads with [parseFloat] is represented
      by the number [parseFloat] returns for it ([NaN] for empty or
      unparsable text).
    - A string is a sequence of code units below 256.
    - The projection horizon and the loop counter are integers ([Z]); the
      clock of [Date.now()] is an integer number of milliseconds.
    - The income resolver and the calculator are embedded a second time, in
      [Double], on binary64 numbers with the rounding, underflow and
      overflow of JavaScript; what is stated there holds of the code's own
      arithmetic.
    - [null] is [None].
    - What the page shows (the rows of the breakdown, the projected
      balance, the points handed to the chart, the numbers of the PDF
      summary, the body of the remote request) is embedded as values; the
      DOM, the chart library, the PDF library and the network are not. *)

From Stdlib Require Import QArith Qcanon ZArith Lia Lqa Ascii String.
From stdpp Require Import base numbers list strings pretty.
From Equations Require Import Equations.
From Stdlib Require Import Floats.

(** ** JavaScript numbers *)

Module Num.

Inductive number : Type :=
| NaN
| PosInf
| NegInf
| Fin (q : Qc).

(** A numeric literal of the source. *)
Definition lit (q : Q) : number := Fin (Q2Qc q).

(** An integer loop counter used as a number. *)
Definition of_Z (z : Z) : number := Fin (Qc_of_Z z).

Definition Qcltb (x y : Qc) : bool :=
  match (x ?= y)%Qc with Lt => true | _ => false end.

Definition Qceqb (x y : Qc) : bool :=
  match (x ?= y)%Qc with Eq => true | _ => false end.

Definition Qcmax (x y : Qc) : Qc := if Qcltb x y then y else x.
Definition Qcmin (x y : Qc) : Qc := if Qcltb y x then y else x.

(** Sign of a finite value: [Lt] negative, [Eq] zero, [Gt] positive. *)
Definition sign (q : Qc) : comparison := (q ?= 0)%Qc.

(** The infinity of a given sign; a zero sign stands for the undefined
    product or quotient. *)
Definition inf_of (s : comparison) : number :=
  match s with Gt => PosInf | Lt => NegInf | Eq => NaN end.

Definition add (x y : number) : number :=
  match x, y with
  | NaN, _ | _, NaN => NaN
  | PosInf, NegInf | NegInf, PosInf => NaN
  | PosInf, _ | _, PosInf => PosInf
  | NegInf, _ | _, NegInf => NegInf
  | Fin a, Fin b => Fin (a + b)%Qc
  end.

Definition sub (x y : number) : number :=
  match x, y with
  | NaN, _ | _, NaN => NaN
  | PosInf, PosInf | NegInf, NegInf => NaN
  | PosInf, _ | _, NegInf => PosInf
  | NegInf, _ | _, PosInf => NegInf
  | Fin a, Fin b => Fin (a - b)%Qc
  end.

Definition mul (x y : number) : number :=
  match x, y with
  | NaN, _ | _, NaN => NaN
  | Fin a, Fin b => Fin (a * b)%Qc
  | PosInf, PosInf | NegInf, NegInf => PosInf
  | PosInf, NegInf | NegInf, PosInf => NegInf
  | PosInf, Fin a | Fin a, PosInf => inf_of (sign a)
  | NegInf, Fin a | Fin a, NegInf => inf_of (CompOpp (sign a))
  end.

Definition div (x y : number) : number :=
  match x, y with
  | NaN, _ | _, NaN => NaN
  | Fin a, Fin b => if Qceqb b 0 then inf_of (sign a) else Fin (a / b)%Qc
  | Fin _, _ => Fin 0%Qc
  | PosInf, Fin b => if Qcltb b 0 then NegInf else PosInf
  | NegInf, Fin b => if Qcltb b 0 then PosInf else NegInf
  | _, _ => NaN
  end.

(** [x < y]; every comparison with [NaN] is false. *)
Definition ltb (x y : number) : bool :=
  match x, y with
  | NaN, _ | _, NaN => false
  | _, NegInf => false
  | NegInf, _ => true
  | PosInf, _ => false
  | Fin _, PosInf => true
  | Fin a, Fin b => Qcltb a b
  end.

(** [x > y]. *)
Definition gtb (x y : number) : bool := ltb y x.

(** [x <= y]. *)
Definition leb (x y : number) : bool :=
  match x, y with
  | NaN, _ | _, NaN => false
  | _, _ => negb (ltb y x)
  end.

(** [Math.max] and [Math.min] of two arguments. *)
Definition max (x y : number) : number :=
  match x, y with
  | NaN, _ | _, NaN => NaN
  | _, _ => if ltb x y then y else x
  end.

Definition min (x y : number) : number :=
  match x, y with
  | NaN, _ | _, NaN => NaN
  | _, _ => if ltb y x then y else x
  end.

(** [!x] on a number: true for [NaN] and zero. *)
Definition falsy (x : number) : bool :=
  match x with
  | NaN => true
  | Fin a => Qceqb a 0
  | _ => false
  end.

End Num.

Import Num.

Declare Scope num_scope.
Delimit Scope num_scope with num.
Bind Scope num_scope with number.
Infix "+" := add : num_scope.
Infix "-" := sub : num_scope.
Infix "*" := mul : num_scope.
Infix "/" := div : num_scope.
Infix ">?" := gtb (at level 70) : num_scope.
Infix "<?" := ltb (at level 70) : num_scope.
Infix "<=?" := leb (at level 70) : num_scope.

(** ** Tax model *)

Module Tax.
Local Open Scope num_scope.

(** [calculateAnnualTax(annualIncome)]: income tax plus National
    Insurance of the 2025-2026 schedule. *)
Definition calculateAnnualTax (annualIncome : number) : number :=
  let personalAllowance := lit 12570 in
  let allowanceTaperStart := lit 100000 in
  let basicRateLimit := lit 37700 in
  let higherRateLimit := lit 125140 in
  let niPrimaryThreshold := lit 12570 in
  let niUpperEarningsLimit := lit 50270 in
  let niMainRate := lit 0.08 in
  let niUpperRate := lit 0.02 in
  let allowanceReduction :=
    max (lit 0) (annualIncome - allowanceTaperStart) / lit 2 in
  let adjustedAllowance := max (lit 0) (personalAllowance - allowanceReduction) in
  let taxableIncome := max (lit 0) (annualIncome - adjustedAllowance) in
  let basicTaxable := min taxableIncome basicRateLimit in
  let higherTaxable :=
    min (max (taxableIncome - basicRateLimit) (lit 0))
        (higherRateLimit - basicRateLimit) in
  let additionalTaxable := max (taxableIncome - higherRateLimit) (lit 0) in
  let incomeTax :=
    basicTaxable * lit 0.2 + higherTaxable * lit 0.4
    + additionalTaxable * lit 0.45 in
  let nationalInsurance :=
    if annualIncome >? niPrimaryThreshold then
      let mainBand := min annualIncome niUpperEarningsLimit - niPrimaryThreshold in
      let upperBand := max (annualIncome - niUpperEarningsLimit) (lit 0) in
      mainBand * niMainRate + upperBand * niUpperRate
    else lit 0 in
  incomeTax + nationalInsurance.

End Tax.

(** ** Application state *)

Module App.
Local Open Scope num_scope.

(** An entry of a ledger: [{ id, name, amount }]. *)
Record Entry : Type := mkEntry {
  id : string;
  name : string;
  amount : number;
}.

(** The state the handlers read and write.  [toggle_checked] selects the
    annual mode; the numeric fields hold what [parseFloat] returns for the
    text of the input of the same name. *)
Record State : Type := mkState {
  toggle_checked : bool;
  taxToggle_checked : bool;
  hourlyRate : number;
  hoursPerWeek : number;
  annualSalary : number;
  currentBalance : number;
  subscriptions : list Entry;
  annualCosts : list Entry;
  selectedProjectionMonths : Z;
}.

Definition set_subscriptions (l : list Entry) (st : State) : State :=
  mkState (toggle_checked st) (taxToggle_checked st) (hourlyRate st)
    (hoursPerWeek st) (annualSalary st) (currentBalance st)
    l (annualCosts st) (selectedProjectionMonths st).

Definition set_annualCosts (l : list Entry) (st : State) : State :=
  mkState (toggle_checked st) (taxToggle_checked st) (hourlyRate st)
    (hoursPerWeek st) (annualSalary st) (currentBalance st)
    (subscriptions st) l (selectedProjectionMonths st).

(** The object [calculateLocally] returns. *)
Record CalculationResult : Type := mkResult {
  grossAnnual : number;
  grossMonthly : number;
  monthlyTax : number;
  netMonthly : number;
  taxEnabled : bool;
}.

(** A point of the projection: [{ month, balance }]. *)
Record Point : Type := mkPoint {
  month : Z;
  balance : number;
}.

End App.

Import App.

(** ** Income resolver and calculator *)

Module Income.
Local Open Scope num_scope.

(** [getAnnualIncome()]. *)
Definition getAnnualIncome (st : State) : option number :=
  let isAnnual := toggle_checked st in
  if isAnnual then
    let annual := annualSalary st in
    if annual >? lit 0 then Some annual else None
  else
    let rate := hourlyRate st in
    let hours := hoursPerWeek st in
    if (rate >? lit 0) && (hours >? lit 0) then Some (rate * hours * lit 52)
    else None.

(** [!annualIncome] on the value [getAnnualIncome] returned. *)
Definition falsy_income (annualIncome : option number) : bool :=
  match annualIncome with
  | None => true
  | Some a => falsy a
  end.

(** [calculateLocally()]. *)
Definition calculateLocally (st : State) : option CalculationResult :=
  let annualIncome := getAnnualIncome st in
  if falsy_income annualIncome then None
  else
    match annualIncome with
    | None => None
    | Some annualIncome =>
        let grossMonthly := annualIncome / lit 12 in
        let monthlyTax :=
          if taxToggle_checked st
          then Tax.calculateAnnualTax annualIncome / lit 12
          else lit 0 in
        Some {| grossAnnual := annualIncome;
                grossMonthly := grossMonthly;
                monthlyTax := monthlyTax;
                netMonthly := grossMonthly - monthlyTax;
                taxEnabled := taxToggle_checked st |}
    end.

End Income.

(** ** Expense ledgers *)

Module Ledger.
Local Open Scope num_scope.

(** White space removed by [String.prototype.trim], among the code units
    below 256: tab, line feed, vertical tab, form feed, carriage return,
    space and no-break space. *)
Definition is_whitespace (c : ascii) : bool :=
  match N_of_ascii c with
  | 9 | 10 | 11 | 12 | 13 | 32 | 160 => true
  | _ => false
  end%N.

Fixpoint trimStart (s : string) : string :=
  match s with
  | EmptyString => EmptyString
  | String c r => if is_whitespace c then trimStart r else s
  end.

Definition trimEnd (s : string) : string :=
  String.rev (trimStart (String.rev s)).

Definition trim (s : string) : string := trimEnd (trimStart s).

(** [!name] on a string: true for the empty string only. *)
Definition falsy_string (s : string) : bool :=
  match s with
  | EmptyString => true
  | String _ _ => false
  end.

(** [Date.now().toString()], given the reading [now] of the clock in
    milliseconds. *)
Definition id_of_now (now : Z) : string := pretty now.

(** The guard [!name || !amount || amount <= 0] of both add handlers. *)
Definition rejected (name : string) (amount : number) : bool :=
  falsy_string name || falsy amount || (amount <=? lit 0).

(** [addSubscription()]: [nameField] is the text of the name input,
    [amountField] the result of [parseFloat] on the amount input, [now]
    the reading of [Date.now()]. *)
Definition addSubscription (nameField : string) (amountField : number)
    (now : Z) (st : State) : State :=
  let name := trim nameField in
  let amount := amountField in
  if rejected name amount then st
  else
    set_subscriptions
      (subscriptions st ++ [ {| id := id_of_now now; name := name; amount := amount |} ])
      st.

(** [addAnnualCost()]. *)
Definition addAnnualCost (nameField : string) (amountField : number)
    (now : Z) (st : State) : State :=
  let name := trim nameField in
  let amount := amountField in
  if rejected name amount then st
  else
    set_annualCosts
      (annualCosts st ++ [ {| id := id_of_now now; name := name; amount := amount |} ])
      st.

(** [Array.prototype.findIndex]: index of the first element satisfying
    [p], or [-1]. *)
Fixpoint findIndex_from {A : Type} (p : A -> bool) (l : list A) (i : Z) : Z :=
  match l with
  | [] => (-1)%Z
  | x :: r => if p x then i else findIndex_from p r (i + 1)%Z
  end.

Definition findIndex {A : Type} (p : A -> bool) (l : list A) : Z :=
  findIndex_from p l 0%Z.

(** [l.splice(start, 1)], as the array it leaves: a negative [start]
    counts from the end, and a [start] past the end removes nothing. *)
Definition splice1 {A : Type} (start : Z) (l : list A) : list A :=
  let len := Z.of_nat (length l) in
  let from :=
    if (start <? 0)%Z then Z.max (len + start) 0 else Z.min start len in
  delete (Z.to_nat from) l.

(** [removeSubscription(id)]. *)
Definition removeSubscription (id0 : string) (st : State) : State :=
  let index := findIndex (fun sub => String.eqb (id sub) id0) (subscriptions st) in
  if (index =? -1)%Z then st
  else set_subscriptions (splice1 index (subscriptions st)) st.

(** [removeAnnualCost(id)]. *)
Definition removeAnnualCost (id0 : string) (st : State) : State :=
  let index := findIndex (fun cost => String.eqb (id cost) id0) (annualCosts st) in
  if (index =? -1)%Z then st
  else set_annualCosts (splice1 index (annualCosts st)) st.

(** [getSubscriptionsTotal()]. *)
Definition getSubscriptionsTotal (st : State) : number :=
  foldl (fun sum sub => sum + amount sub) (lit 0) (subscriptions st).

(** [getAnnualCostsAnnualTotal()]. *)
Definition getAnnualCostsAnnualTotal (st : State) : number :=
  foldl (fun sum cost => sum + amount cost) (lit 0) (annualCosts st).

(** [getAnnualCostsMonthlyTotal()]. *)
Definition getAnnualCostsMonthlyTotal (st : State) : number :=
  getAnnualCostsAnnualTotal st / lit 12.

End Ledger.

(** ** Disposable income and projection *)

Module Projection.
Local Open Scope num_scope.

(** [getCurrentBalance()]. *)
Definition getCurrentBalance (st : State) : number :=
  let value := currentBalance st in
  if falsy value || (value <? lit 0) then lit 0 else value.

(** [getDisposableMonthly(result)]. *)
Definition getDisposableMonthly (st : State)
    (result : option CalculationResult) : number :=
  match result with
  | None => lit 0
  | Some result =>
      let subscriptionsCost := Ledger.getSubscriptionsTotal st in
      let annualMonthlyEquivalent := Ledger.getAnnualCostsMonthlyTotal st in
      netMonthly result - subscriptionsCost - annualMonthlyEquivalent
  end.

(** The loop of [buildProjectionSeries], from counter [i] and with the
    points pushed so far in [series]. *)
Equations? for_loop (startBalance monthlyDelta : number) (months : Z)
    (i : Z) (series : list Point) : list Point
    by wf (Z.to_nat (months + 1 - i)) lt :=
  for_loop startBalance monthlyDelta months i series
    with decide (i <= months)%Z := {
    | left _ :=
        for_loop startBalance monthlyDelta months (i + 1)%Z
          (series ++ [ {| month := i;
                          balance := startBalance + monthlyDelta * of_Z i |} ]);
    | right _ := series }.
Proof. lia. Qed.

(** [buildProjectionSeries(startBalance, monthlyDelta, months)]. *)
Definition buildProjectionSeries (startBalance monthlyDelta : number)
    (months : Z) : list Point :=
  for_loop startBalance monthlyDelta months 0%Z [].

(** The series [renderProjection(result)] hands to the chart. *)
Definition renderProjection (st : State)
    (result : option CalculationResult) : list Point :=
  let disposable := getDisposableMonthly st result in
  let balance := getCurrentBalance st in
  match result with
  | None => []
  | Some r =>
      if grossMonthly r <=? lit 0 then []
      else buildProjectionSeries balance disposable (selectedProjectionMonths st)
  end.

End Projection.

(** ** Sequences of ledger actions *)

Module Session.

(** The state when the page has loaded and nothing was entered: both
    ledgers empty, every numeric field empty, a horizon of 3 months. *)
Definition initial : State :=
  mkState false false NaN NaN NaN NaN [] [] 3.

(** A click on an add or a remove button, with what the handler reads:
    the two input fields and the clock for an add, the [data-id] of the
    button for a remove. *)
Inductive Action : Type :=
| AddSubscription (nameField : string) (amountField : number) (now : Z)
| AddAnnualCost (nameField : string) (amountField : number) (now : Z)
| RemoveSubscription (id0 : string)
| RemoveAnnualCost (id0 : string).

Definition step (st : State) (a : Action) : State :=
  match a with
  | AddSubscription n x now => Ledger.addSubscription n x now st
  | AddAnnualCost n x now => Ledger.addAnnualCost n x now st
  | RemoveSubscription i => Ledger.removeSubscription i st
  | RemoveAnnualCost i => Ledger.removeAnnualCost i st
  end.

(** The state after a sequence of actions, first action first. *)
Definition run (st : State) (acts : list Action) : State :=
  foldl step st acts.

(** The clock reading an action takes, if it is an add. *)
Definition clock (a : Action) : option Z :=
  match a with
  | AddSubscription _ _ now | AddAnnualCost _ _ now => Some now
  | RemoveSubscription _ | RemoveAnnualCost _ => None
  end.

(** The clock readings of a sequence of actions, in order. *)
Definition clocks (acts : list Action) : list Z := omap clock acts.

End Session.

(** ** What the page shows *)

Module View.
Local Open Scope num_scope.

(** The rows [renderResult(result)] writes, as labels with the numbers
    before [formatCurrency]; [None] stands for the message shown when there
    is nothing to display. *)
Definition renderResult (st : State) (result : option CalculationResult)
    : option (list (string * number)) :=
  match result with
  | None => None
  | Some result =>
      if grossMonthly result >? lit 0 then
        let subscriptionsCost := Ledger.getSubscriptionsTotal st in
        let annualMonthlyEquivalent := Ledger.getAnnualCostsMonthlyTotal st in
        let disposable :=
          netMonthly result - subscriptionsCost - annualMonthlyEquivalent in
        let annualTotal := Ledger.getAnnualCostsAnnualTotal st in
        let taxLabel :=
          if taxEnabled result then "Estimated monthly tax"%string
          else "Estimated monthly tax (off)"%string in
        Some [ ("Gross monthly income"%string, grossMonthly result);
               (taxLabel, monthlyTax result);
               ("Net monthly income"%string, netMonthly result);
               ("Total subscriptions"%string, subscriptionsCost);
               ("Annual costs (monthly equivalent)"%string,
                annualMonthlyEquivalent);
               ("Annual costs (total)"%string, annualTotal);
               ("Disposable income"%string, disposable) ]
      else None
  end.

(** The projected balance [renderProjection(result)] shows, before
    [formatCurrency]; [None] stands for the message shown when there is
    nothing to display. *)
Definition renderProjection_projected (st : State)
    (result : option CalculationResult) : option number :=
  let disposable := Projection.getDisposableMonthly st result in
  let balance := Projection.getCurrentBalance st in
  match result with
  | None => None
  | Some r =>
      if grossMonthly r <=? lit 0 then None
      else Some (balance + disposable * of_Z (selectedProjectionMonths st))
  end.

(** The labels and the values [updateChart(data)] hands to the chart. *)
Definition updateChart_labels (data : list Point) : list Z :=
  month <$> data.

Definition updateChart_values (data : list Point) : list number :=
  balance <$> data.

(** [calculateMonthlyIncome()] with the [API_URL] of the source, which is
    empty: no remote call is made and the local result is rendered.  The
    value is what the two render functions receive and display. *)
Definition calculateMonthlyIncome (st : State)
    : option (list (string * number)) * list Point :=
  let localResult := Income.calculateLocally st in
  let result := localResult in
  (renderResult st result, Projection.renderProjection st result).

(** The numbers [exportToPdf()] writes into the summary, before
    [formatCurrency]. *)
Record PdfSummary : Type := mkPdfSummary {
  pdf_netIncome : number;
  pdf_totalExpenses : number;
  pdf_disposable : number;
  pdf_grossMonthly : number;
  pdf_taxLabel : string;
  pdf_monthlyTax : number;
  pdf_subscriptionsCost : number;
  pdf_annualMonthlyEquivalent : number;
  pdf_annualTotal : number;
  pdf_currentBalance : number;
  pdf_timeframe : Z;
  pdf_projectedBalance : number;
}.

(** [exportToPdf()], up to the page it builds. *)
Definition exportToPdf (st : State) : PdfSummary :=
  let result := Income.calculateLocally st in
  let subscriptionsCost := Ledger.getSubscriptionsTotal st in
  let annualMonthlyEquivalent := Ledger.getAnnualCostsMonthlyTotal st in
  let annualTotal := Ledger.getAnnualCostsAnnualTotal st in
  let totalExpenses := subscriptionsCost + annualMonthlyEquivalent in
  let disposable := Projection.getDisposableMonthly st result in
  let currentBalance := Projection.getCurrentBalance st in
  let projectedBalance :=
    currentBalance + disposable * of_Z (selectedProjectionMonths st) in
  let taxLabel :=
    if taxToggle_checked st then "Estimated monthly tax"%string
    else "Estimated monthly tax (off)"%string in
  {| pdf_netIncome :=
       match result with Some r => netMonthly r | None => lit 0 end;
     pdf_totalExpenses := totalExpenses;
     pdf_disposable := disposable;
     pdf_grossMonthly :=
       match result with Some r => grossMonthly r | None => lit 0 end;
     pdf_taxLabel := taxLabel;
     pdf_monthlyTax :=
       match result with Some r => monthlyTax r | None => lit 0 end;
     pdf_subscriptionsCost := subscriptionsCost;
     pdf_annualMonthlyEquivalent := annualMonthlyEquivalent;
     pdf_annualTotal := annualTotal;
     pdf_currentBalance := currentBalance;
     pdf_timeframe := selectedProjectionMonths st;
     pdf_projectedBalance := projectedBalance |}.

(** The request body [calculateViaAPI()] builds. *)
Inductive RequestBody : Type :=
| AnnualBody (annual_salary : number) (tax_enabled : bool)
| HourlyBody (hourly_rate hours_per_week : number) (tax_enabled : bool).

(** [calculateViaAPI()] up to the request: the body it would send, or
    [None] when it returns [null] before sending anything. *)
Definition calculateViaAPI_body (st : State) : option RequestBody :=
  let isAnnual := toggle_checked st in
  if isAnnual then
    let annual := annualSalary st in
    if falsy annual || (annual <=? lit 0) then None
    else Some (AnnualBody annual (taxToggle_checked st))
  else
    let rate := hourlyRate st in
    let hours := hoursPerWeek st in
    if falsy rate || falsy hours || (rate <=? lit 0) || (hours <=? lit 0)
    then None
    else Some (HourlyBody rate hours (taxToggle_checked st)).

End View.

(** ** The income path on binary64 numbers *)

Set Warnings "-inexact-float".

Module Double.
Local Open Scope float_scope.

(** [!x] on a number: true for the two zeros and [NaN]. *)
Definition falsy (x : float) : bool :=
  PrimFloat.eqb x 0 || PrimFloat.is_nan x.

(** [x > y]. *)
Definition gtb (x y : float) : bool := PrimFloat.ltb y x.

Definition is_neg_zero (x : float) : bool :=
  match PrimFloat.classify x with
  | NZero => true
  | _ => false
  end.

(** [Math.max] and [Math.min] of two arguments: [NaN] if either is, and
    the positive zero above the negative one. *)
Definition max (x y : float) : float :=
  if PrimFloat.is_nan x || PrimFloat.is_nan y then nan
  else if PrimFloat.ltb x y then y
  else if PrimFloat.ltb y x then x
  else if is_neg_zero x then y else x.

Definition min (x y : float) : float :=
  if PrimFloat.is_nan x || PrimFloat.is_nan y then nan
  else if PrimFloat.ltb y x then y
  else if PrimFloat.ltb x y then x
  else if is_neg_zero y then y else x.

Record Entry : Type := mkEntry {
  id : string;
  name : string;
  amount : float;
}.

(** The state, as [App.State], with binary64 numbers. *)
Record State : Type := mkState {
  toggle_checked : bool;
  taxToggle_checked : bool;
  hourlyRate : float;
  hoursPerWeek : float;
  annualSalary : float;
  currentBalance : float;
  subscriptions : list Entry;
  annualCosts : list Entry;
  selectedProjectionMonths : Z;
}.

Record CalculationResult : Type := mkResult {
  grossAnnual : float;
  grossMonthly : float;
  monthlyTax : float;
  netMonthly : float;
  taxEnabled : bool;
}.

(** [getAnnualIncome()]. *)
Definition getAnnualIncome (st : State) : option float :=
  let isAnnual := toggle_checked st in
  if isAnnual then
    let annual := annualSalary st in
    if gtb annual 0 then Some annual else None
  else
    let rate := hourlyRate st in
    let hours := hoursPerWeek st in
    if gtb rate 0 && gtb hours 0 then Some (rate * hours * 52)
    else None.

(** [calculateAnnualTax(annualIncome)]. *)
Definition calculateAnnualTax (annualIncome : float) : float :=
  let personalAllowance := 12570 in
  let allowanceTaperStart := 100000 in
  let basicRateLimit := 37700 in
  let higherRateLimit := 125140 in
  let niPrimaryThreshold := 12570 in
  let niUpperEarningsLimit := 50270 in
  let niMainRate := 0.08 in
  let niUpperRate := 0.02 in
  let allowanceReduction :=
    max 0 (annualIncome - allowanceTaperStart) / 2 in
  let adjustedAllowance := max 0 (personalAllowance - allowanceReduction) in
  let taxableIncome := max 0 (annualIncome - adjustedAllowance) in
  let basicTaxable := min taxableIncome basicRateLimit in
  let higherTaxable :=
    min (max (taxableIncome - basicRateLimit) 0)
        (higherRateLimit - basicRateLimit) in
  let additionalTaxable := max (taxableIncome - higherRateLimit) 0 in
  let incomeTax :=
    basicTaxable * 0.2 + higherTaxable * 0.4 + additionalTaxable * 0.45 in
  let nationalInsurance :=
    if gtb annualIncome niPrimaryThreshold then
      let mainBand := min annualIncome niUpperEarningsLimit - niPrimaryThreshold in
      let upperBand := max (annualIncome - niUpperEarningsLimit) 0 in
      mainBand * niMainRate + upperBand * niUpperRate
    else 0 in
  incomeTax + nationalInsurance.

(** [!annualIncome] on the value [getAnnualIncome] returned. *)
Definition falsy_income (annualIncome : option float) : bool :=
  match annualIncome with
  | None => true
  | Some a => falsy a
  end.

(** [calculateLocally()]. *)
Definition calculateLocally (st : State) : option CalculationResult :=
  let annualIncome := getAnnualIncome st in
  if falsy_income annualIncome then None
  else
    match annualIncome with
    | None => None
    | Some annualIncome =>
        let grossMonthly := annualIncome / 12 in
        let monthlyTax :=
          if taxToggle_checked st
          then calculateAnnualTax annualIncome / 12
          else 0 in
        Some {| grossAnnual := annualIncome;
                grossMonthly := grossMonthly;
                monthlyTax := monthlyTax;
                netMonthly := grossMonthly - monthlyTax;
                taxEnabled := taxToggle_checked st |}
    end.

End Double.

(** ** The reference schedule of the specification *)

Module Spec.
Local Open Scope Qc_scope.

(** The schedule as the specification words it, on exact rationals. *)

(** [allowance = max(0, 12570 - max(0, income-100000)/2)]. *)
Definition allowance (income : Qc) : Qc :=
  Qcmax 0 (Q2Qc 12570 - Qcmax 0 (income - Q2Qc 100000) / Q2Qc 2).

(** [taxableIncome = max(0, income - allowance)]. *)
Definition taxableIncome (income : Qc) : Qc :=
  Qcmax 0 (income - allowance income).

(** The three bands: the first 37700 at 20%, the next 125140 - 37700 at
    40%, the remainder at 45%. *)
Definition incomeTax (taxable : Qc) : Qc :=
  Qcmin taxable (Q2Qc 37700) * Q2Qc 0.2
  + Qcmin (Qcmax (taxable - Q2Qc 37700) 0) (Q2Qc 125140 - Q2Qc 37700)
    * Q2Qc 0.4
  + Qcmax (taxable - Q2Qc 125140) 0 * Q2Qc 0.45.

(** National Insurance: 8% between 12570 and 50270, 2% above, nothing
    unless the income exceeds 12570. *)
Definition nationalInsurance (income : Qc) : Qc :=
  if decide (Q2Qc 12570 < income)
  then (Qcmin income (Q2Qc 50270) - Q2Qc 12570) * Q2Qc 0.08
       + Qcmax (income - Q2Qc 50270) 0 * Q2Qc 0.02
  else 0.

(** [total = incomeTax + NI]. *)
Definition annualTax (income : Qc) : Qc :=
  incomeTax (taxableIncome income) + nationalInsurance income.

(** A number that is [> 0]: a positive finite value or plus infinity. *)
Definition positive (x : number) : Prop :=
  match x with
  | PosInf => True
  | Fin q => 0 < q
  | NaN | NegInf => False
  end.

(** A positive finite number. *)
Definition positive_finite (x : number) : Prop :=
  match x with
  | Fin q => 0 < q
  | _ => False
  end.

End Spec.

(** ** Predicates on states *)

Module Inv.
Local Open Scope Qc_scope.

(** A number that is [>= 0]: a finite value that is not negative, or plus
    infinity. *)
Definition nonneg (x : number) : Prop :=
  match x with
  | PosInf => True
  | Fin q => 0 <= q
  | NaN | NegInf => False
  end.

(** A finite number. *)
Definition finite (x : number) : Prop :=
  match x with
  | Fin _ => True
  | _ => False
  end.

(** A string with no white space at either end. *)
Definition no_outer_space (s : string) : Prop :=
  (forall c r, s = String c r -> Ledger.is_whitespace c = false)
  /\ (forall c r, s = String.append r (String c EmptyString) ->
      Ledger.is_whitespace c = false).

(** An entry as the add handlers create it: a name that is not empty and
    has no white space around it, and an amount [> 0]. *)
Definition entry_ok (e : Entry) : Prop :=
  name e <> EmptyString
  /\ no_outer_space (name e)
  /\ Spec.positive (amount e).

(** A state the page can be in after some clicks on the add and remove
    buttons. *)
Definition reachable (st : State) : Prop :=
  exists acts, st = Session.run Session.initial acts.

End Inv.

(** * Properties *)

(** ** Rational arithmetic *)

Section QcFacts.
Local Open Scope Qc_scope.

Lemma Qcltb_lt (x y : Qc) : Qcltb x y = true <-> x < y.
Proof.
  unfold Qcltb. rewrite Qclt_alt.
  destruct (x ?= y); split; congruence.
Qed.

Lemma Qcltb_ge (x y : Qc) : Qcltb x y = false <-> y <= x.
Proof.
  rewrite Qcle_ngt, <- Qcltb_lt. destruct (Qcltb x y); split; congruence.
Qed.

Lemma Qceqb_eq (x y : Qc) : Qceqb x y = true <-> x = y.
Proof.
  unfold Qceqb. rewrite Qceq_alt.
  destruct (x ?= y); split; congruence.
Qed.

Lemma Qcmax_cases (x y : Qc) :
  (x < y /\ Qcmax x y = y) \/ (y <= x /\ Qcmax x y = x).
Proof.
  unfold Qcmax. destruct (Qcltb x y) eqn:E.
  - left. split; [by apply Qcltb_lt|done].
  - right. split; [by apply Qcltb_ge|done].
Qed.

Lemma Qcmin_cases (x y : Qc) :
  (y < x /\ Qcmin x y = y) \/ (x <= y /\ Qcmin x y = x).
Proof.
  unfold Qcmin. destruct (Qcltb y x) eqn:E.
  - left. split; [by apply Qcltb_lt|done].
  - right. split; [by apply Qcltb_ge|done].
Qed.

End QcFacts.

(** Moves a goal and its hypotheses on [Qc] to [Q], where [lra] applies. *)
Ltac qc_to_q :=
  unfold Qcle, Qclt, Qcminus, Qcdiv, Qcplus, Qcmult, Qcopp, Qcinv, Q2Qc in *;
  cbn [this] in *;
  repeat rewrite Qred_correct in *.

Ltac qc_lra := first [apply Qc_is_canon | idtac]; qc_to_q; lra.

Ltac split_max x y :=
  let H := fresh "Hmax" in
  let E := fresh "Emax" in
  destruct (Qcmax_cases x y) as [[H E] | [H E]]; rewrite E in *; clear E.

Ltac split_min x y :=
  let H := fresh "Hmin" in
  let E := fresh "Emin" in
  destruct (Qcmin_cases x y) as [[H E] | [H E]]; rewrite E in *; clear E.

Ltac split_minmax :=
  repeat match goal with
  | |- context [Qcmax ?x ?y] => split_max x y
  | |- context [Qcmin ?x ?y] => split_min x y
  | H : context [Qcmax ?x ?y] |- _ => split_max x y
  | H : context [Qcmin ?x ?y] |- _ => split_min x y
  end.

(** ** Numbers on finite arguments *)

Section NumFacts.
Local Open Scope num_scope.

Lemma max_Fin (a b : Qc) : max (Fin a) (Fin b) = Fin (Qcmax a b).
Proof. unfold max, Qcmax. simpl. by destruct (Qcltb a b). Qed.

Lemma min_Fin (a b : Qc) : min (Fin a) (Fin b) = Fin (Qcmin a b).
Proof. unfold min, Qcmin. simpl. by destruct (Qcltb b a). Qed.

Lemma div_Fin (a b : Qc) : b <> 0%Qc -> Fin a / Fin b = Fin (a / b)%Qc.
Proof.
  intros Hb. simpl. destruct (Qceqb b 0) eqn:E; [|done].
  by apply Qceqb_eq in E.
Qed.

Lemma leb_Fin (a b : Qc) : (Fin a <=? Fin b) = true <-> (a <= b)%Qc.
Proof.
  simpl. rewrite negb_true_iff. apply Qcltb_ge.
Qed.

Lemma gtb_Fin (a b : Qc) : (Fin a >? Fin b) = true <-> (b < a)%Qc.
Proof. apply Qcltb_lt. Qed.

End NumFacts.

(** ** Tax model *)

Section TaxFacts.
Local Open Scope Qc_scope.

Lemma Q2Qc_nonzero (q : Q) : ~ (q == 0)%Q -> Q2Qc q <> 0.
Proof. intros H E. apply Q2Qc_eq_iff in E. done. Qed.

(** On a finite income the code computes the reference schedule. *)
Lemma calculateAnnualTax_Fin (a : Qc) :
  Tax.calculateAnnualTax (Fin a) = Fin (Spec.annualTax a).
Proof.
  unfold Tax.calculateAnnualTax, Spec.annualTax, Spec.incomeTax,
    Spec.nationalInsurance, Spec.taxableIncome, Spec.allowance, lit.
  cbn zeta.
  repeat first
    [ rewrite max_Fin | rewrite min_Fin
    | rewrite div_Fin by (by apply Q2Qc_nonzero)
    | progress cbn [sub add mul] ].
  unfold gtb. cbn [ltb].
  destruct (decide (Q2Qc 12570 < a)) as [H|H].
  - apply Qcltb_lt in H as ->.
    repeat first [ rewrite max_Fin | rewrite min_Fin | progress cbn [sub add mul] ].
    done.
  - destruct (Qcltb (Q2Qc 12570) a) eqn:E; [by apply Qcltb_lt in E|].
    cbn [add]. done.
Qed.

End TaxFacts.

(** C1.  For every annual income [a >= 0], [calculateAnnualTax] returns the
    value of the reference schedule (allowance with taper, three bands,
    National Insurance above 12570), in exact rational arithmetic; in
    particular it returns 0 at 12570, 4880.4 at 30000 and 58713.6 at
    150000. *)
Theorem annualTax_reference_schedule :
  (forall a : Qc, (0 <= a)%Qc ->
     Tax.calculateAnnualTax (Fin a) = Fin (Spec.annualTax a))
  /\ Tax.calculateAnnualTax (lit 12570) = lit 0
  /\ Tax.calculateAnnualTax (lit 30000) = lit 4880.4
  /\ Tax.calculateAnnualTax (lit 150000) = lit 58713.6.
Proof.
  split; [intros a _; apply calculateAnnualTax_Fin|].
  repeat split; unfold lit; rewrite calculateAnnualTax_Fin; f_equal;
    apply Qc_is_canon; vm_compute; reflexivity.
Qed.

Lemma annualTax_reference_schedule_witness :
  (0 <= Q2Qc 30000)%Qc
  /\ Tax.calculateAnnualTax (Fin (Q2Qc 30000)) = Fin (Spec.annualTax (Q2Qc 30000)).
Proof.
  assert (H : (0 <= Q2Qc 30000)%Qc) by (vm_compute; discriminate).
  split; [exact H | exact (proj1 annualTax_reference_schedule _ H)].
Defined.

Section TaxOrder.
Local Open Scope Qc_scope.

Lemma Qcmax_le_mono (x x' y y' : Qc) :
  x <= x' -> y <= y' -> Qcmax x y <= Qcmax x' y'.
Proof. intros Hx Hy. split_minmax; qc_lra. Qed.

Lemma Qcmin_le_mono (x x' y y' : Qc) :
  x <= x' -> y <= y' -> Qcmin x y <= Qcmin x' y'.
Proof. intros Hx Hy. split_minmax; qc_lra. Qed.

Lemma Qcmax_ge_l (x y : Qc) : x <= Qcmax x y.
Proof. split_minmax; qc_lra. Qed.

Lemma Qcmax_ge_r (x y : Qc) : y <= Qcmax x y.
Proof. split_minmax; qc_lra. Qed.

Lemma Qcmin_glb (x y z : Qc) : z <= x -> z <= y -> z <= Qcmin x y.
Proof. intros Hx Hy. by split_minmax. Qed.

Lemma Qcminus_le_mono (x x' y y' : Qc) :
  x <= x' -> y' <= y -> x - y <= x' - y'.
Proof. intros Hx Hy. qc_lra. Qed.

Lemma Qcminus_nonneg (x y : Qc) : y <= x -> 0 <= x - y.
Proof. intros H. qc_lra. Qed.

Lemma Qcmult_nonneg (x y : Qc) : 0 <= x -> 0 <= y -> 0 <= x * y.
Proof.
  intros Hx Hy. rewrite <- (Qcmult_0_l y). by apply Qcmult_le_compat_r.
Qed.

Lemma Qcplus_nonneg (x y : Qc) : 0 <= x -> 0 <= y -> 0 <= x + y.
Proof. intros Hx Hy. qc_lra. Qed.

Lemma Qcle_Q2Qc (p q : Q) : (p <= q)%Q -> Q2Qc p <= Q2Qc q.
Proof. intros H. qc_lra. Qed.

(** The constants of the schedule are ordered as the bands need. *)
Ltac const_le := apply Qcle_Q2Qc; vm_compute; discriminate.

Lemma half_mono (x y : Qc) : x <= y -> x / Q2Qc 2 <= y / Q2Qc 2.
Proof.
  intros H. unfold Qcdiv. apply Qcmult_le_compat_r; [done|].
  vm_compute. discriminate.
Qed.

Lemma allowance_antitone (a b : Qc) :
  a <= b -> Spec.allowance b <= Spec.allowance a.
Proof.
  intros Hab. unfold Spec.allowance.
  apply Qcmax_le_mono; [done|].
  apply Qcminus_le_mono; [done|].
  apply half_mono, Qcmax_le_mono; [done|].
  by apply Qcminus_le_mono.
Qed.

Lemma taxableIncome_monotone (a b : Qc) :
  a <= b -> Spec.taxableIncome a <= Spec.taxableIncome b.
Proof.
  intros Hab. unfold Spec.taxableIncome.
  apply Qcmax_le_mono; [done|].
  apply Qcminus_le_mono; [done|]. by apply allowance_antitone.
Qed.

Lemma taxableIncome_nonneg (a : Qc) : 0 <= Spec.taxableIncome a.
Proof. apply Qcmax_ge_l. Qed.

Lemma incomeTax_monotone (t u : Qc) :
  t <= u -> Spec.incomeTax t <= Spec.incomeTax u.
Proof.
  intros Htu. unfold Spec.incomeTax.
  repeat apply Qcplus_le_compat;
    (apply Qcmult_le_compat_r; [|const_le]).
  - by apply Qcmin_le_mono.
  - apply Qcmin_le_mono; [|done].
    apply Qcmax_le_mono; [|done]. by apply Qcminus_le_mono.
  - apply Qcmax_le_mono; [|done]. by apply Qcminus_le_mono.
Qed.

Lemma incomeTax_nonneg (t : Qc) : 0 <= t -> 0 <= Spec.incomeTax t.
Proof.
  intros Ht. unfold Spec.incomeTax.
  repeat apply Qcplus_nonneg; (apply Qcmult_nonneg; [|const_le]).
  - apply Qcmin_glb; [done|const_le].
  - apply Qcmin_glb; [apply Qcmax_ge_r|].
    apply Qcminus_nonneg. const_le.
  - apply Qcmax_ge_r.
Qed.

(** National Insurance on an income above the primary threshold. *)
Lemma nationalInsurance_above (a : Qc) :
  Q2Qc 12570 < a ->
  Spec.nationalInsurance a =
    (Qcmin a (Q2Qc 50270) - Q2Qc 12570) * Q2Qc 0.08
    + Qcmax (a - Q2Qc 50270) 0 * Q2Qc 0.02.
Proof. intros H. unfold Spec.nationalInsurance. by rewrite decide_True. Qed.

Lemma nationalInsurance_below (a : Qc) :
  a <= Q2Qc 12570 -> Spec.nationalInsurance a = 0.
Proof.
  intros H. unfold Spec.nationalInsurance.
  rewrite decide_False; [done|]. by apply Qcle_not_lt.
Qed.

Lemma nationalInsurance_nonneg (a : Qc) : 0 <= Spec.nationalInsurance a.
Proof.
  destruct (Qclt_le_dec (Q2Qc 12570) a) as [H|H].
  - rewrite nationalInsurance_above by done.
    apply Qcplus_nonneg; (apply Qcmult_nonneg; [|const_le]).
    + apply Qcminus_nonneg.
      apply Qcmin_glb; [by apply Qclt_le_weak|const_le].
    + apply Qcmax_ge_r.
  - by rewrite nationalInsurance_below.
Qed.

Lemma nationalInsurance_monotone (a b : Qc) :
  a <= b -> Spec.nationalInsurance a <= Spec.nationalInsurance b.
Proof.
  intros Hab.
  destruct (Qclt_le_dec (Q2Qc 12570) a) as [Ha|Ha].
  - assert (Hb : Q2Qc 12570 < b) by (by eapply Qclt_le_trans).
    rewrite !nationalInsurance_above by done.
    apply Qcplus_le_compat; (apply Qcmult_le_compat_r; [|const_le]).
    + apply Qcminus_le_mono; [|done]. by apply Qcmin_le_mono.
    + apply Qcmax_le_mono; [|done]. by apply Qcminus_le_mono.
  - rewrite (nationalInsurance_below a) by done.
    apply nationalInsurance_nonneg.
Qed.

Lemma annualTax_nonneg (a : Qc) : 0 <= Spec.annualTax a.
Proof.
  unfold Spec.annualTax. apply Qcplus_nonneg.
  - apply incomeTax_nonneg, taxableIncome_nonneg.
  - apply nationalInsurance_nonneg.
Qed.

Lemma annualTax_monotone (a b : Qc) :
  a <= b -> Spec.annualTax a <= Spec.annualTax b.
Proof.
  intros Hab. unfold Spec.annualTax. apply Qcplus_le_compat.
  - by apply incomeTax_monotone, taxableIncome_monotone.
  - by apply nationalInsurance_monotone.
Qed.

End TaxOrder.

(** C2.  For incomes [0 < a <= b], the tax on [a] is not negative and not
    above the tax on [b]: [calculateAnnualTax] is non-negative and
    monotonically non-decreasing on positive incomes, through the taper
    region and every threshold. *)
Theorem annualTax_nonneg_monotone (a b : Qc) :
  (0 < a)%Qc -> (a <= b)%Qc ->
  (lit 0 <=? Tax.calculateAnnualTax (Fin a))%num = true
  /\ (Tax.calculateAnnualTax (Fin a) <=? Tax.calculateAnnualTax (Fin b))%num = true.
Proof.
  intros _ Hab. rewrite !calculateAnnualTax_Fin. unfold lit. split.
  - apply leb_Fin, annualTax_nonneg.
  - by apply leb_Fin, annualTax_monotone.
Qed.

Lemma annualTax_nonneg_monotone_witness :
  (lit 0 <=? Tax.calculateAnnualTax (lit 110000))%num = true
  /\ (Tax.calculateAnnualTax (lit 110000) <=? Tax.calculateAnnualTax (lit 125140))%num = true.
Proof.
  apply (annualTax_nonneg_monotone (Q2Qc 110000) (Q2Qc 125140));
    vm_compute; first [reflexivity | discriminate].
Defined.

(** ** Income resolver and calculator *)

Section IncomeFacts.
Local Open Scope num_scope.

Lemma gtb_zero_positive (x : number) :
  (x >? lit 0) = true <-> Spec.positive x.
Proof.
  destruct x as [| | |q]; simpl; try (split; [discriminate|tauto]); try tauto.
  apply Qcltb_lt.
Qed.

Lemma gtb_zero_not_positive (x : number) :
  (x >? lit 0) = false <-> ~ Spec.positive x.
Proof.
  rewrite <- gtb_zero_positive. destruct (x >? lit 0); split; congruence.
Qed.

Lemma sign_positive (q : Qc) : (0 < q)%Qc -> sign q = Gt.
Proof. intros H. unfold sign. by apply Qcgt_alt. Qed.

Lemma positive_mul (x y : number) :
  Spec.positive x -> Spec.positive y -> Spec.positive (x * y).
Proof.
  destruct x as [| | |a], y as [| | |b]; simpl; try tauto.
  - intros _ Hb. by rewrite sign_positive.
  - intros Ha _. by rewrite sign_positive.
  - intros Ha Hb. rewrite <- (Qcmult_0_l b). by apply Qcmult_lt_compat_r.
Qed.

Lemma positive_truthy (x : number) : Spec.positive x -> falsy x = false.
Proof.
  destruct x as [| | |q]; simpl; try tauto.
  intros H. destruct (Qceqb q 0) eqn:E; [|done].
  apply Qceqb_eq in E. subst q. by apply Qclt_not_eq in H.
Qed.

Lemma getAnnualIncome_hourly_present (st : State) :
  toggle_checked st = false ->
  Spec.positive (hourlyRate st) -> Spec.positive (hoursPerWeek st) ->
  Income.getAnnualIncome st = Some (hourlyRate st * hoursPerWeek st * lit 52).
Proof.
  intros Hm Hr Hh. unfold Income.getAnnualIncome. cbn zeta. rewrite Hm.
  apply gtb_zero_positive in Hr, Hh. by rewrite Hr, Hh.
Qed.

Lemma getAnnualIncome_hourly_absent (st : State) :
  toggle_checked st = false ->
  ~ (Spec.positive (hourlyRate st) /\ Spec.positive (hoursPerWeek st)) ->
  Income.getAnnualIncome st = None.
Proof.
  intros Hm Hn. unfold Income.getAnnualIncome. cbn zeta. rewrite Hm.
  destruct (hourlyRate st >? lit 0) eqn:Er; [|done].
  destruct (hoursPerWeek st >? lit 0) eqn:Eh; [|done].
  destruct Hn. split; by apply gtb_zero_positive.
Qed.

Lemma getAnnualIncome_annual_present (st : State) :
  toggle_checked st = true -> Spec.positive (annualSalary st) ->
  Income.getAnnualIncome st = Some (annualSalary st).
Proof.
  intros Hm Ha. unfold Income.getAnnualIncome. cbn zeta. rewrite Hm.
  apply gtb_zero_positive in Ha. by rewrite Ha.
Qed.

Lemma getAnnualIncome_annual_absent (st : State) :
  toggle_checked st = true -> ~ Spec.positive (annualSalary st) ->
  Income.getAnnualIncome st = None.
Proof.
  intros Hm Hn. unfold Income.getAnnualIncome. cbn zeta. rewrite Hm.
  apply gtb_zero_not_positive in Hn. by rewrite Hn.
Qed.

Lemma getAnnualIncome_positive (st : State) (v : number) :
  Income.getAnnualIncome st = Some v -> Spec.positive v.
Proof.
  unfold Income.getAnnualIncome. cbn zeta.
  destruct (toggle_checked st).
  - destruct (annualSalary st >? lit 0) eqn:E; [|discriminate].
    intros [= <-]. by apply gtb_zero_positive.
  - destruct (hourlyRate st >? lit 0) eqn:Er; [|discriminate].
    destruct (hoursPerWeek st >? lit 0) eqn:Eh; [|discriminate].
    intros [= <-]. simpl.
    apply positive_mul; [apply positive_mul; by apply gtb_zero_positive|].
    vm_compute. reflexivity.
Qed.

Lemma calculateLocally_Some (st : State) (v : number) :
  Income.getAnnualIncome st = Some v ->
  Income.calculateLocally st =
    Some {| grossAnnual := v;
            grossMonthly := v / lit 12;
            monthlyTax :=
              if taxToggle_checked st
              then Tax.calculateAnnualTax v / lit 12 else lit 0;
            netMonthly :=
              v / lit 12
              - (if taxToggle_checked st
                 then Tax.calculateAnnualTax v / lit 12 else lit 0);
            taxEnabled := taxToggle_checked st |}.
Proof.
  intros H. unfold Income.calculateLocally. cbn zeta. rewrite H.
  unfold Income.falsy_income.
  by rewrite (positive_truthy v (getAnnualIncome_positive st v H)).
Qed.

Lemma calculateLocally_None (st : State) :
  Income.getAnnualIncome st = None -> Income.calculateLocally st = None.
Proof.
  intros H. unfold Income.calculateLocally. cbn zeta. by rewrite H.
Qed.

End IncomeFacts.

(** C5.  [getAnnualIncome] depends on the form only; in hourly mode it
    returns [rate * hoursPerWeek * 52] exactly when both the rate and the
    hours are [> 0], in annual mode it returns the given amount exactly when
    that is [> 0], and it returns nothing in every other case.  A rate of 20
    with 35 hours gives 36400. *)
Theorem getAnnualIncome_resolves (st : State) :
  (toggle_checked st = false ->
     (Spec.positive (hourlyRate st) /\ Spec.positive (hoursPerWeek st) ->
        Income.getAnnualIncome st
        = Some (hourlyRate st * hoursPerWeek st * lit 52)%num)
     /\ (~ (Spec.positive (hourlyRate st) /\ Spec.positive (hoursPerWeek st)) ->
        Income.getAnnualIncome st = None))
  /\ (toggle_checked st = true ->
     (Spec.positive (annualSalary st) ->
        Income.getAnnualIncome st = Some (annualSalary st))
     /\ (~ Spec.positive (annualSalary st) ->
        Income.getAnnualIncome st = None))
  /\ (forall r h : Qc, hourlyRate st = Fin r -> hoursPerWeek st = Fin h ->
        (hourlyRate st * hoursPerWeek st * lit 52)%num
        = Fin (r * h * Q2Qc 52)%Qc)
  /\ (toggle_checked st = false ->
      hourlyRate st = lit 20 -> hoursPerWeek st = lit 35 ->
      Income.getAnnualIncome st = Some (lit 36400)).
Proof.
  split; [|split; [|split]].
  - intros Hm. split.
    + intros [Hr Hh]. by apply getAnnualIncome_hourly_present.
    + by apply getAnnualIncome_hourly_absent.
  - intros Hm. split.
    + by apply getAnnualIncome_annual_present.
    + by apply getAnnualIncome_annual_absent.
  - intros r h -> ->. reflexivity.
  - intros Hm Hr Hh. rewrite getAnnualIncome_hourly_present; try done.
    + rewrite Hr, Hh. simpl.
      apply (f_equal Some), (f_equal Fin), Qc_is_canon. vm_compute. reflexivity.
    + rewrite Hr. vm_compute. reflexivity.
    + rewrite Hh. vm_compute. reflexivity.
Qed.

Lemma getAnnualIncome_resolves_witness :
  Income.getAnnualIncome
    (mkState false true (lit 20) (lit 35) NaN NaN [] [] 3)
  = Some (lit 36400).
Proof.
  apply (getAnnualIncome_resolves
           (mkState false true (lit 20) (lit 35) NaN NaN [] [] 3));
    reflexivity.
Defined.

Section DoubleFacts.
Local Open Scope float_scope.

Lemma SFcompare_refl (x : SpecFloat.spec_float) :
  x <> S754_nan -> SFcompare x x = Some Eq.
Proof.
  destruct x as [s|s| |s m e]; intros H; [reflexivity| |done|].
  - by destruct s.
  - simpl. rewrite Z.compare_refl, Pos.compare_cont_refl. by destruct s.
Qed.

(** A number that passes the test [x > 0] is neither a zero nor [NaN]. *)
Lemma gtb_zero_truthy (x : float) :
  Double.gtb x 0 = true -> Double.falsy x = false.
Proof.
  unfold Double.gtb, Double.falsy, PrimFloat.is_nan.
  rewrite FloatAxioms.ltb_spec, !FloatAxioms.eqb_spec.
  change (Prim2SF 0) with (S754_zero false).
  destruct (Prim2SF x) as [s| s| |s m e] eqn:E; unfold SFltb, SFeqb.
  - discriminate.
  - destruct s; [discriminate|]. reflexivity.
  - discriminate.
  - destruct s; [discriminate|]. intros _.
    rewrite SFcompare_refl by discriminate. reflexivity.
Qed.

Lemma double_calculateLocally_None (st : Double.State) :
  Double.getAnnualIncome st = None -> Double.calculateLocally st = None.
Proof.
  intros H. unfold Double.calculateLocally. cbn zeta. by rewrite H.
Qed.

Lemma double_calculateLocally_cases (st : Double.State) :
  Double.calculateLocally st = None <->
  Double.getAnnualIncome st = None
  \/ exists v, Double.getAnnualIncome st = Some v /\ Double.falsy v = true.
Proof.
  unfold Double.calculateLocally. cbn zeta.
  destruct (Double.getAnnualIncome st) as [v|]; simpl.
  - destruct (Double.falsy v) eqn:E; split.
    + intros _. right. by exists v.
    + done.
    + discriminate.
    + intros [H|(w & [= <-] & H)]; congruence.
  - split; [by left|done].
Qed.

End DoubleFacts.

(** C4, as the code has it.  On binary64 numbers, [calculateLocally]
    returns nothing whenever [getAnnualIncome] returns nothing, and
    otherwise only when the income resolved is a number for which
    [!annualIncome] holds, which an hourly product that underflows to 0 is;
    in annual mode it returns nothing exactly when [getAnnualIncome] does.
    So with an hourly rate of 0, or any income value for which the test
    [> 0] fails (zero, negative, or [NaN] for a missing one), the result is
    absent, whatever the tax switch and the two ledgers hold; and a result
    that is present is never a zero result: its gross annual income is the
    income resolved, and it is neither 0 nor [NaN]. *)
Theorem calculateLocally_absent_double (st : Double.State) :
  (Double.getAnnualIncome st = None -> Double.calculateLocally st = None)
  /\ (Double.calculateLocally st = None <->
      Double.getAnnualIncome st = None
      \/ exists v,
           Double.getAnnualIncome st = Some v /\ Double.falsy v = true)
  /\ (Double.toggle_checked st = true ->
      (Double.calculateLocally st = None
       <-> Double.getAnnualIncome st = None))
  /\ (Double.toggle_checked st = false ->
      Double.gtb (Double.hourlyRate st) 0 = false
      \/ Double.gtb (Double.hoursPerWeek st) 0 = false ->
      Double.calculateLocally st = None)
  /\ (Double.toggle_checked st = true ->
      Double.gtb (Double.annualSalary st) 0 = false ->
      Double.calculateLocally st = None)
  /\ (forall tax hours annual bal subs costs months,
      Double.calculateLocally
        (Double.mkState false tax 0 hours annual bal subs costs months)
      = None
      /\ Double.calculateLocally
           (Double.mkState false tax nan hours annual bal subs costs months)
         = None)
  /\ (forall r, Double.calculateLocally st = Some r ->
      Double.getAnnualIncome st = Some (Double.grossAnnual r)
      /\ Double.falsy (Double.grossAnnual r) = false).
Proof.
  split; [apply double_calculateLocally_None|].
  split; [apply double_calculateLocally_cases|].
  split; [|split; [|split; [|split]]]; cycle 4.
  { intros r. unfold Double.calculateLocally. cbn zeta.
    destruct (Double.getAnnualIncome st) as [v|]; [|discriminate]. simpl.
    destruct (Double.falsy v) eqn:E; [discriminate|].
    by intros [= <-]. }
  - intros Hm. rewrite double_calculateLocally_cases.
    split; [|by left]. intros [H|(v & Hv & Hf)]; [done|]. exfalso.
    unfold Double.getAnnualIncome in Hv. cbn zeta in Hv. rewrite Hm in Hv.
    destruct (Double.gtb (Double.annualSalary st) 0) eqn:E; [|discriminate].
    injection Hv as <-. apply gtb_zero_truthy in E. congruence.
  - intros Hm H. apply double_calculateLocally_None.
    unfold Double.getAnnualIncome. cbn zeta. rewrite Hm.
    destruct H as [-> | ->]; [done|]. by rewrite andb_false_r.
  - intros Hm H. apply double_calculateLocally_None.
    unfold Double.getAnnualIncome. cbn zeta. by rewrite Hm, H.
  - intros tax hours annual bal subs costs months.
    split; apply double_calculateLocally_None; reflexivity.
Qed.

Lemma calculateLocally_absent_double_witness :
  Double.calculateLocally
    (Double.mkState false true (-3)%float 40%float 30000%float 100%float
       [Double.mkEntry "1730000000000" "Gym" 25%float] [] 6) = None.
Proof.
  refine (proj1 (proj2 (proj2 (proj2 (calculateLocally_absent_double
           (Double.mkState false true (-3)%float 40%float 30000%float
              100%float [Double.mkEntry "1730000000000" "Gym" 25%float]
              [] 6))))) _ _).
  - reflexivity.
  - left. reflexivity.
Defined.

(** C4, as stated, fails: with an hourly rate and weekly hours of 1e-200
    both tests [> 0] pass and the product underflows, so [getAnnualIncome]
    returns the number 0, not nothing, while [calculateLocally] returns
    nothing. *)
Lemma calculateLocally_absent_on_underflow :
  let st :=
    Double.mkState false true 1e-200%float 1e-200%float nan nan [] [] 3 in
  Double.getAnnualIncome st = Some 0%float
  /\ Double.calculateLocally st = None.
Proof. split; reflexivity. Qed.

(** C3.  A result of [calculateLocally] satisfies
    [grossMonthly = grossAnnual / 12] and
    [netMonthly = grossMonthly - monthlyTax], with
    [monthlyTax = calculateAnnualTax(grossAnnual) / 12] when the tax switch
    is on and [monthlyTax = 0] when it is off; and the disposable income is
    [netMonthly - subscriptions total - annual costs / 12], not clamped: it
    is negative for an income of 12000 against a subscription of 1200. *)
Theorem calculateLocally_fields :
  (forall (st : State) (r : CalculationResult),
     Income.calculateLocally st = Some r ->
     Income.getAnnualIncome st = Some (grossAnnual r)
     /\ grossMonthly r = (grossAnnual r / lit 12)%num
     /\ netMonthly r = (grossMonthly r - monthlyTax r)%num
     /\ taxEnabled r = taxToggle_checked st
     /\ (taxEnabled r = true ->
         monthlyTax r = (Tax.calculateAnnualTax (grossAnnual r) / lit 12)%num)
     /\ (taxEnabled r = false -> monthlyTax r = lit 0)
     /\ Projection.getDisposableMonthly st (Some r)
        = (netMonthly r - Ledger.getSubscriptionsTotal st
           - Ledger.getAnnualCostsMonthlyTotal st)%num)
  /\ (let st := mkState true false NaN NaN (lit 12000) NaN
                  [mkEntry "1730000000000" "Rent" (lit 1200)] [] 3 in
      exists r, Income.calculateLocally st = Some r
        /\ Projection.getDisposableMonthly st (Some r) = lit (-200)).
Proof.
  split.
  - intros st r Hr.
    destruct (Income.getAnnualIncome st) as [v|] eqn:E.
    + rewrite (calculateLocally_Some st v E) in Hr.
      injection Hr as <-. simpl.
      repeat split; try done.
      * by intros ->.
      * by intros ->.
    + by rewrite (calculateLocally_None st E) in Hr.
  - cbn zeta. eexists. split; [reflexivity|].
    vm_compute. apply (f_equal Fin), Qc_is_canon. reflexivity.
Qed.

Lemma calculateLocally_fields_witness :
  let st := mkState true true NaN NaN (lit 30000) NaN [] [] 3 in
  exists r, Income.calculateLocally st = Some r
    /\ grossMonthly r = (grossAnnual r / lit 12)%num
    /\ netMonthly r = (grossMonthly r - monthlyTax r)%num.
Proof.
  cbn zeta.
  destruct (Income.calculateLocally
              (mkState true true NaN NaN (lit 30000) NaN [] [] 3))
    as [r|] eqn:E; [|vm_compute in E; discriminate E].
  exists r.
  pose proof (proj1 calculateLocally_fields _ r E) as (_ & Hg & Hn & _).
  repeat split; assumption.
Defined.

(** ** Projection *)

Section ProjectionFacts.
Local Open Scope num_scope.

(** The loop appends one point per month from [i] up to [months]. *)
Lemma for_loop_seqZ (s d : number) (m i : Z) (acc : list Point) :
  Projection.for_loop s d m i acc
  = acc ++ ((fun k => {| month := k; balance := s + d * of_Z k |})
              <$> seqZ i (m + 1 - i)).
Proof.
  funelim (Projection.for_loop s d m i acc).
  - match goal with IH : Projection.for_loop _ _ _ _ _ = _ ++ _ |- _ =>
      rewrite IH end.
    rewrite (seqZ_cons i (months + 1 - i)) by lia.
    rewrite <- app_assoc. cbn.
    by replace (Z.pred (months + 1 - i)) with (months + 1 - (i + 1))%Z by lia.
  - rewrite seqZ_nil by lia. by rewrite app_nil_r.
Qed.

Lemma buildProjectionSeries_seqZ (s d : number) (m : Z) :
  Projection.buildProjectionSeries s d m
  = (fun k => {| month := k; balance := s + d * of_Z k |}) <$> seqZ 0 (m + 1).
Proof.
  unfold Projection.buildProjectionSeries. rewrite for_loop_seqZ.
  by replace (m + 1 - 0)%Z with (m + 1)%Z by lia.
Qed.

Lemma buildProjectionSeries_length (s d : number) (m : Z) :
  length (Projection.buildProjectionSeries s d m) = Z.to_nat (m + 1).
Proof.
  by rewrite buildProjectionSeries_seqZ, length_fmap, length_seqZ.
Qed.

Lemma buildProjectionSeries_lookup (s d : number) (m : Z) (i : nat) :
  (Z.of_nat i <= m)%Z ->
  Projection.buildProjectionSeries s d m !! i
  = Some {| month := Z.of_nat i; balance := s + d * of_Z (Z.of_nat i) |}.
Proof.
  intros Hi. rewrite buildProjectionSeries_seqZ, list_lookup_fmap.
  rewrite lookup_seqZ_lt by lia. done.
Qed.

Lemma Qc_of_Z_0 : Qc_of_Z 0 = 0%Qc.
Proof. by apply Qc_is_canon. Qed.

End ProjectionFacts.

(** C6.  For a horizon [m >= 0], [buildProjectionSeries] returns exactly
    [m + 1] points, and its [i]-th point, for [i] from 0 to [m], has month
    [i] and balance [startBalance + monthlyDelta * i]; on real (finite)
    arguments that balance is the rational [s + d * i].  In particular the
    series for (1000, 200, 3) is (0,1000), (1,1200), (2,1400), (3,1600), and
    for a horizon of 0 it is the single point (0, x). *)
Theorem buildProjectionSeries_points :
  (forall (s d : number) (m : Z), (0 <= m)%Z ->
     length (Projection.buildProjectionSeries s d m) = S (Z.to_nat m)
     /\ forall i : Z, (0 <= i <= m)%Z ->
          Projection.buildProjectionSeries s d m !! Z.to_nat i
          = Some {| month := i; balance := (s + d * of_Z i)%num |})
  /\ (forall (s d : Qc) (i : Z),
        (Fin s + Fin d * of_Z i)%num = Fin (s + d * Qc_of_Z i)%Qc)
  /\ Projection.buildProjectionSeries (lit 1000) (lit 200) 3
     = [ {| month := 0; balance := lit 1000 |};
         {| month := 1; balance := lit 1200 |};
         {| month := 2; balance := lit 1400 |};
         {| month := 3; balance := lit 1600 |} ]
  /\ (forall x y : Qc,
        Projection.buildProjectionSeries (Fin x) (Fin y) 0
        = [ {| month := 0; balance := Fin x |} ]).
Proof.
  split; [|split; [|split]].
  - intros s d m Hm. split.
    + rewrite buildProjectionSeries_length. lia.
    + intros i Hi. rewrite buildProjectionSeries_lookup by lia.
      by rewrite Z2Nat.id by lia.
  - reflexivity.
  - rewrite buildProjectionSeries_seqZ. cbn.
    repeat (f_equal; try (apply Qc_is_canon; reflexivity)).
  - intros x y. rewrite buildProjectionSeries_seqZ.
    replace (seqZ 0 (0 + 1)) with [0%Z] by reflexivity.
    unfold of_Z. cbn [fmap list_fmap add mul].
    do 3 f_equal. rewrite Qc_of_Z_0. ring.
Qed.

Lemma buildProjectionSeries_points_witness :
  length (Projection.buildProjectionSeries (lit 1000) (lit 200) 3) = 4%nat
  /\ Projection.buildProjectionSeries (lit 1000) (lit 200) 3 !! 2%nat
     = Some {| month := 2; balance := (lit 1000 + lit 200 * of_Z 2)%num |}.
Proof.
  assert (H3 : (0 <= 3)%Z) by lia.
  assert (H2 : (0 <= 2 <= 3)%Z) by lia.
  pose proof (proj1 buildProjectionSeries_points (lit 1000) (lit 200) 3%Z H3)
    as [Hlen Hpt].
  split; [exact Hlen | exact (Hpt 2%Z H2)].
Defined.

(** C10.  [buildProjectionSeries] returns for every integer horizon: for a
    negative one it returns the empty series, and for every horizon [m] the
    series has [max(0, m + 1)] points. *)
Theorem buildProjectionSeries_total (s d : number) (m : Z) :
  ((m < 0)%Z -> Projection.buildProjectionSeries s d m = [])
  /\ length (Projection.buildProjectionSeries s d m)
     = Z.to_nat (Z.max 0 (m + 1)).
Proof.
  split.
  - intros Hm. rewrite buildProjectionSeries_seqZ.
    by rewrite seqZ_nil by lia.
  - rewrite buildProjectionSeries_length. lia.
Qed.

Lemma buildProjectionSeries_total_witness :
  Projection.buildProjectionSeries (lit 1000) (lit 200) (-2) = [].
Proof.
  apply (proj1 (buildProjectionSeries_total (lit 1000) (lit 200) (-2))).
  lia.
Defined.

(** ** Ledgers *)

Section ListFacts.
Context {A : Type}.
Implicit Types (p : A -> bool) (l : list A).

Lemma findIndex_from_absent p l (i : Z) :
  Forall (fun x => p x = false) l -> Ledger.findIndex_from p l i = (-1)%Z.
Proof.
  intros H. revert i. induction H as [|x l Hx _ IH]; intros i; simpl; [done|].
  by rewrite Hx.
Qed.

Lemma findIndex_from_first p l1 (e : A) l2 (i : Z) :
  Forall (fun x => p x = false) l1 -> p e = true ->
  Ledger.findIndex_from p (l1 ++ e :: l2) i = (i + Z.of_nat (length l1))%Z.
Proof.
  intros H He. revert i. induction H as [|x l Hx _ IH]; intros i; simpl.
  - rewrite He. lia.
  - rewrite Hx, IH. lia.
Qed.

(** A list with a match splits at its first match. *)
Lemma first_match p l :
  Exists (fun x => p x = true) l ->
  exists l1 e l2,
    l = l1 ++ e :: l2 /\ Forall (fun x => p x = false) l1 /\ p e = true.
Proof.
  induction l as [|x l IH]; intros H; [by apply Exists_nil in H|].
  destruct (p x) eqn:Hx.
  - by exists [], x, l.
  - apply Exists_cons in H as [H|H]; [congruence|].
    destruct (IH H) as (l1 & e & l2 & -> & Hl1 & He).
    exists (x :: l1), e, l2. repeat split; [|done]. by constructor.
Qed.

Lemma splice1_middle l1 (e : A) l2 :
  Ledger.splice1 (Z.of_nat (length l1)) (l1 ++ e :: l2) = l1 ++ l2.
Proof.
  unfold Ledger.splice1. cbn zeta.
  destruct (Z.ltb_spec (Z.of_nat (length l1)) 0) as [Hlt|_]; [lia|].
  rewrite length_app. cbn [length].
  rewrite Z.min_l by lia. rewrite Nat2Z.id. apply delete_middle.
Qed.

End ListFacts.

Section LedgerFacts.
Local Open Scope num_scope.

Lemma falsy_string_empty (s : string) :
  Ledger.falsy_string s = true <-> s = EmptyString.
Proof. destruct s; simpl; split; congruence. Qed.

Lemma leb_zero_not_positive (x : number) :
  falsy x || (x <=? lit 0) = true <-> ~ Spec.positive x.
Proof.
  destruct x as [| | |q]; simpl; try (split; [tauto|done]).
  - split; [discriminate|tauto].
  - rewrite orb_true_iff, negb_true_iff, Qcltb_ge, Qceqb_eq.
    split.
    + intros [->|H]; [by apply Qcle_not_lt|by apply Qcle_not_lt].
    + intros H. right. by apply Qcnot_lt_le.
Qed.

Lemma rejected_true (name : string) (amount : number) :
  Ledger.rejected name amount = true
  <-> name = EmptyString \/ ~ Spec.positive amount.
Proof.
  unfold Ledger.rejected.
  rewrite <- orb_assoc, orb_true_iff, falsy_string_empty.
  by rewrite leb_zero_not_positive.
Qed.

Lemma rejected_false (name : string) (amount : number) :
  name <> EmptyString -> Spec.positive amount ->
  Ledger.rejected name amount = false.
Proof.
  intros Hn Ha. destruct (Ledger.rejected name amount) eqn:E; [|done].
  apply rejected_true in E as [?|?]; done.
Qed.

Lemma addSubscription_rejected (n : string) (x : number) (now : Z) (st : State) :
  Ledger.trim n = EmptyString \/ ~ Spec.positive x ->
  Ledger.addSubscription n x now st = st.
Proof.
  intros H. unfold Ledger.addSubscription. cbn zeta.
  by apply rejected_true in H as ->.
Qed.

Lemma addAnnualCost_rejected (n : string) (x : number) (now : Z) (st : State) :
  Ledger.trim n = EmptyString \/ ~ Spec.positive x ->
  Ledger.addAnnualCost n x now st = st.
Proof.
  intros H. unfold Ledger.addAnnualCost. cbn zeta.
  by apply rejected_true in H as ->.
Qed.

Lemma addSubscription_accepted (n : string) (x : number) (now : Z) (st : State) :
  Ledger.trim n <> EmptyString -> Spec.positive x ->
  Ledger.addSubscription n x now st
  = set_subscriptions
      (subscriptions st ++ [mkEntry (Ledger.id_of_now now) (Ledger.trim n) x]) st.
Proof.
  intros Hn Hx. unfold Ledger.addSubscription. cbn zeta.
  by rewrite rejected_false.
Qed.

Lemma addAnnualCost_accepted (n : string) (x : number) (now : Z) (st : State) :
  Ledger.trim n <> EmptyString -> Spec.positive x ->
  Ledger.addAnnualCost n x now st
  = set_annualCosts
      (annualCosts st ++ [mkEntry (Ledger.id_of_now now) (Ledger.trim n) x]) st.
Proof.
  intros Hn Hx. unfold Ledger.addAnnualCost. cbn zeta.
  by rewrite rejected_false.
Qed.

Lemma id_test_false (id0 : string) (l : list Entry) :
  Forall (fun e => id e <> id0) l ->
  Forall (fun e => String.eqb (id e) id0 = false) l.
Proof.
  intros H. eapply Forall_impl; [exact H|].
  intros e. by rewrite String.eqb_neq.
Qed.

Lemma removeSubscription_absent (id0 : string) (st : State) :
  Forall (fun e => id e <> id0) (subscriptions st) ->
  Ledger.removeSubscription id0 st = st.
Proof.
  intros H. unfold Ledger.removeSubscription, Ledger.findIndex. cbn zeta.
  by rewrite (findIndex_from_absent _ _ _ (id_test_false _ _ H)).
Qed.

Lemma removeAnnualCost_absent (id0 : string) (st : State) :
  Forall (fun e => id e <> id0) (annualCosts st) ->
  Ledger.removeAnnualCost id0 st = st.
Proof.
  intros H. unfold Ledger.removeAnnualCost, Ledger.findIndex. cbn zeta.
  by rewrite (findIndex_from_absent _ _ _ (id_test_false _ _ H)).
Qed.

Lemma removeSubscription_present (id0 : string) (st : State)
    (l1 : list Entry) (e : Entry) (l2 : list Entry) :
  subscriptions st = l1 ++ e :: l2 ->
  Forall (fun x => id x <> id0) l1 -> id e = id0 ->
  Ledger.removeSubscription id0 st = set_subscriptions (l1 ++ l2) st.
Proof.
  intros Hl H1 He. unfold Ledger.removeSubscription, Ledger.findIndex.
  cbn zeta. rewrite Hl.
  rewrite findIndex_from_first;
    [|by apply id_test_false|by apply String.eqb_eq].
  destruct (Z.eqb_spec (0 + Z.of_nat (length l1)) (-1)) as [?|_]; [lia|].
  by rewrite Z.add_0_l, splice1_middle.
Qed.

Lemma removeAnnualCost_present (id0 : string) (st : State)
    (l1 : list Entry) (e : Entry) (l2 : list Entry) :
  annualCosts st = l1 ++ e :: l2 ->
  Forall (fun x => id x <> id0) l1 -> id e = id0 ->
  Ledger.removeAnnualCost id0 st = set_annualCosts (l1 ++ l2) st.
Proof.
  intros Hl H1 He. unfold Ledger.removeAnnualCost, Ledger.findIndex.
  cbn zeta. rewrite Hl.
  rewrite findIndex_from_first;
    [|by apply id_test_false|by apply String.eqb_eq].
  destruct (Z.eqb_spec (0 + Z.of_nat (length l1)) (-1)) as [?|_]; [lia|].
  by rewrite Z.add_0_l, splice1_middle.
Qed.

(** A ledger holding the id splits at the first entry that has it. *)
Lemma first_with_id (id0 : string) (l : list Entry) :
  Exists (fun e => id e = id0) l ->
  exists l1 e l2,
    l = l1 ++ e :: l2 /\ Forall (fun x => id x <> id0) l1 /\ id e = id0.
Proof.
  intros H.
  destruct (first_match (fun e => String.eqb (id e) id0) l)
    as (l1 & e & l2 & -> & Hl1 & He).
  - eapply Exists_impl; [exact H|]. intros x. by rewrite String.eqb_eq.
  - exists l1, e, l2. repeat split; [|by apply String.eqb_eq].
    eapply Forall_impl; [exact Hl1|]. intros x. by rewrite String.eqb_neq.
Qed.

End LedgerFacts.

(** C7, as the code has it.  The add and remove handlers are total.  An add
    leaves the whole state unchanged when the name is empty after trimming
    or the amount is not [> 0] (it is [NaN], zero or negative); otherwise,
    for a non-empty trimmed name and an amount [> 0], plus infinity
    included, it appends exactly one entry at the end of its ledger and
    changes nothing else.  A remove with an id that no entry of the ledger
    has leaves the state unchanged. *)
Theorem ledger_mutations_noop_or_append
    (st : State) (nameField : string) (amount : number) (now : Z)
    (id0 : string) :
  (Ledger.trim nameField = EmptyString \/ ~ Spec.positive amount ->
     Ledger.addSubscription nameField amount now st = st
     /\ Ledger.addAnnualCost nameField amount now st = st)
  /\ (Ledger.trim nameField <> EmptyString -> Spec.positive amount ->
      Ledger.addSubscription nameField amount now st
      = set_subscriptions
          (subscriptions st
           ++ [mkEntry (Ledger.id_of_now now) (Ledger.trim nameField) amount])
          st
      /\ Ledger.addAnnualCost nameField amount now st
         = set_annualCosts
             (annualCosts st
              ++ [mkEntry (Ledger.id_of_now now) (Ledger.trim nameField) amount])
             st)
  /\ (Forall (fun e => id e <> id0) (subscriptions st) ->
      Ledger.removeSubscription id0 st = st)
  /\ (Forall (fun e => id e <> id0) (annualCosts st) ->
      Ledger.removeAnnualCost id0 st = st).
Proof.
  split; [|split; [|split]].
  - intros H. split.
    + by apply addSubscription_rejected.
    + by apply addAnnualCost_rejected.
  - intros Hn Hx. split.
    + by apply addSubscription_accepted.
    + by apply addAnnualCost_accepted.
  - apply removeSubscription_absent.
  - apply removeAnnualCost_absent.
Qed.

Lemma ledger_mutations_noop_or_append_witness :
  Ledger.addSubscription "  " (lit 25) 1730000000000 Session.initial
  = Session.initial
  /\ Ledger.addAnnualCost " Car tax " (lit 190) 1730000000000 Session.initial
     = set_annualCosts
         [mkEntry "1730000000000" "Car tax" (lit 190)] Session.initial.
Proof.
  split.
  - refine (proj1 (proj1 (ledger_mutations_noop_or_append
              Session.initial "  " (lit 25) 1730000000000 "") _)).
    left. reflexivity.
  - refine (proj2 (proj1 (proj2 (ledger_mutations_noop_or_append
              Session.initial " Car tax " (lit 190) 1730000000000 "")) _ _)).
    + vm_compute. discriminate.
    + vm_compute. reflexivity.
Defined.

(** C7, as stated, fails: plus infinity is not a positive finite number,
    yet an add with that amount appends an entry to the empty ledger. *)
Lemma add_accepts_infinite_amount :
  ~ Spec.positive_finite PosInf
  /\ subscriptions Session.initial = []
  /\ subscriptions
       (Ledger.addSubscription "Gym" PosInf 1730000000000 Session.initial)
     = [mkEntry "1730000000000" "Gym" PosInf].
Proof.
  split; [|split].
  - intros H. exact H.
  - reflexivity.
  - reflexivity.
Qed.

(** C9.  A remove with an id that some entry of the ledger has deletes
    exactly the first entry with that id: the ledger splits as
    [l1 ++ e :: l2] with [e] the first match, and the remove leaves
    [l1 ++ l2], every other entry and the order kept, the other ledger and
    the rest of the state untouched, the length one less. *)
Theorem remove_deletes_first_match (st : State) (id0 : string) :
  (Exists (fun e => id e = id0) (subscriptions st) ->
     exists l1 e l2,
       subscriptions st = l1 ++ e :: l2
       /\ Forall (fun x => id x <> id0) l1 /\ id e = id0
       /\ Ledger.removeSubscription id0 st = set_subscriptions (l1 ++ l2) st
       /\ subscriptions (Ledger.removeSubscription id0 st) = l1 ++ l2
       /\ annualCosts (Ledger.removeSubscription id0 st) = annualCosts st
       /\ S (length (subscriptions (Ledger.removeSubscription id0 st)))
          = length (subscriptions st))
  /\ (Exists (fun e => id e = id0) (annualCosts st) ->
     exists l1 e l2,
       annualCosts st = l1 ++ e :: l2
       /\ Forall (fun x => id x <> id0) l1 /\ id e = id0
       /\ Ledger.removeAnnualCost id0 st = set_annualCosts (l1 ++ l2) st
       /\ annualCosts (Ledger.removeAnnualCost id0 st) = l1 ++ l2
       /\ subscriptions (Ledger.removeAnnualCost id0 st) = subscriptions st
       /\ S (length (annualCosts (Ledger.removeAnnualCost id0 st)))
          = length (annualCosts st)).
Proof.
  split; intros H.
  - destruct (first_with_id id0 _ H) as (l1 & e & l2 & Hl & Hl1 & He).
    exists l1, e, l2.
    rewrite (removeSubscription_present id0 st l1 e l2 Hl Hl1 He).
    repeat split; try done.
    rewrite Hl. cbn. rewrite !length_app. cbn. lia.
  - destruct (first_with_id id0 _ H) as (l1 & e & l2 & Hl & Hl1 & He).
    exists l1, e, l2.
    rewrite (removeAnnualCost_present id0 st l1 e l2 Hl Hl1 He).
    repeat split; try done.
    rewrite Hl. cbn. rewrite !length_app. cbn. lia.
Qed.

Lemma remove_deletes_first_match_witness :
  let st :=
    set_subscriptions
      [mkEntry "1" "Gym" (lit 25); mkEntry "2" "Music" (lit 10);
       mkEntry "2" "Films" (lit 8)] Session.initial in
  exists l1 e l2,
    subscriptions st = l1 ++ e :: l2
    /\ Forall (fun x => id x <> "2") l1 /\ id e = "2"
    /\ Ledger.removeSubscription "2" st = set_subscriptions (l1 ++ l2) st
    /\ subscriptions (Ledger.removeSubscription "2" st) = l1 ++ l2
    /\ annualCosts (Ledger.removeSubscription "2" st) = annualCosts st
    /\ S (length (subscriptions (Ledger.removeSubscription "2" st)))
       = length (subscriptions st).
Proof.
  cbn zeta.
  apply (proj1 (remove_deletes_first_match _ "2")).
  apply Exists_cons_tl, Exists_cons_hd. reflexivity.
Defined.

(** ** Entry identifiers *)

Section IdFacts.

(** An action changes a ledger by appending one entry or deleting one, or
    not at all: an entry that stays keeps its id, name and amount. *)
Lemma step_subscriptions (st : State) (a : Session.Action) :
  subscriptions (Session.step st a) = subscriptions st
  \/ (exists e, subscriptions (Session.step st a) = subscriptions st ++ [e])
  \/ (exists l1 e l2,
        subscriptions st = l1 ++ e :: l2
        /\ subscriptions (Session.step st a) = l1 ++ l2).
Proof.
  destruct a as [n x now|n x now|id0|id0]; simpl.
  - unfold Ledger.addSubscription. cbn zeta.
    destruct (Ledger.rejected _ _); [by left|]. right. left. by eexists.
  - unfold Ledger.addAnnualCost. cbn zeta.
    destruct (Ledger.rejected _ _); by left.
  - destruct (decide (Exists (fun e => id e = id0) (subscriptions st)))
      as [H|H].
    + destruct (first_with_id id0 _ H) as (l1 & e & l2 & Hl & Hl1 & He).
      rewrite (removeSubscription_present id0 st l1 e l2 Hl Hl1 He).
      right. right. by exists l1, e, l2.
    + apply not_Exists_Forall in H; [|intros ?; apply _].
      rewrite removeSubscription_absent; [by left|done].
  - unfold Ledger.removeAnnualCost. cbn zeta.
    destruct (_ =? _)%Z; by left.
Qed.

Lemma step_annualCosts (st : State) (a : Session.Action) :
  annualCosts (Session.step st a) = annualCosts st
  \/ (exists e, annualCosts (Session.step st a) = annualCosts st ++ [e])
  \/ (exists l1 e l2,
        annualCosts st = l1 ++ e :: l2
        /\ annualCosts (Session.step st a) = l1 ++ l2).
Proof.
  destruct a as [n x now|n x now|id0|id0]; simpl.
  - unfold Ledger.addSubscription. cbn zeta.
    destruct (Ledger.rejected _ _); by left.
  - unfold Ledger.addAnnualCost. cbn zeta.
    destruct (Ledger.rejected _ _); [by left|]. right. left. by eexists.
  - unfold Ledger.removeSubscription. cbn zeta.
    destruct (_ =? _)%Z; by left.
  - destruct (decide (Exists (fun e => id e = id0) (annualCosts st)))
      as [H|H].
    + destruct (first_with_id id0 _ H) as (l1 & e & l2 & Hl & Hl1 & He).
      rewrite (removeAnnualCost_present id0 st l1 e l2 Hl Hl1 He).
      right. right. by exists l1, e, l2.
    + apply not_Exists_Forall in H; [|intros ?; apply _].
      rewrite removeAnnualCost_absent; [by left|done].
Qed.

(** An add keeps the ids of a ledger distinct when the clock reading is
    not the one of an entry already there. *)
Lemma addSubscription_NoDup (n : string) (x : number) (now : Z) (st : State) :
  NoDup (id <$> subscriptions st) ->
  Ledger.id_of_now now ∉ (id <$> subscriptions st) ->
  NoDup (id <$> subscriptions (Ledger.addSubscription n x now st)).
Proof.
  intros Hnd Hfresh. unfold Ledger.addSubscription. cbn zeta.
  destruct (Ledger.rejected _ _); [done|]. cbn.
  rewrite fmap_app. apply NoDup_app. repeat split; [done| |].
  - intros i Hi Hi'. cbn in Hi'.
    apply list_elem_of_singleton in Hi'. by subst i.
  - cbn. apply NoDup_singleton.
Qed.

Lemma removeSubscription_NoDup (id0 : string) (st : State) :
  NoDup (id <$> subscriptions st) ->
  NoDup (id <$> subscriptions (Ledger.removeSubscription id0 st)).
Proof.
  intros Hnd.
  destruct (step_subscriptions st (Session.RemoveSubscription id0))
    as [E|[[e E]|(l1 & e & l2 & E1 & E2)]]; simpl in *.
  - by rewrite E.
  - apply (f_equal length) in E. rewrite length_app in E. cbn in E.
    unfold Ledger.removeSubscription in E. cbn zeta in E.
    destruct (_ =? _)%Z; [lia|]. cbn in E.
    unfold Ledger.splice1 in E. cbn zeta in E.
    match type of E with length (delete ?k _) = _ =>
      pose proof (sublist_length _ _ (sublist_delete (subscriptions st) k))
    end.
    lia.
  - rewrite E2. rewrite E1 in Hnd. rewrite fmap_app in *. cbn in Hnd.
    apply NoDup_app in Hnd as (H1 & H2 & H3).
    apply NoDup_cons in H3 as [_ H3].
    apply NoDup_app. repeat split; [done| |done].
    intros i Hi Hi'. apply (H2 i Hi). by right.
Qed.

Lemma removeAnnualCost_NoDup (id0 : string) (st : State) :
  NoDup (id <$> annualCosts st) ->
  NoDup (id <$> annualCosts (Ledger.removeAnnualCost id0 st)).
Proof.
  intros Hnd.
  destruct (decide (Exists (fun e => id e = id0) (annualCosts st))) as [H|H].
  - destruct (first_with_id id0 _ H) as (l1 & e & l2 & Hl & Hl1 & He).
    rewrite (removeAnnualCost_present id0 st l1 e l2 Hl Hl1 He). cbn.
    rewrite Hl in Hnd. rewrite fmap_app in *. cbn in Hnd.
    apply NoDup_app in Hnd as (H1 & H2 & H3).
    apply NoDup_cons in H3 as [_ H3].
    apply NoDup_app. repeat split; [done| |done].
    intros i Hi Hi'. apply (H2 i Hi). by right.
  - apply not_Exists_Forall in H; [|intros ?; apply _].
    by rewrite removeAnnualCost_absent.
Qed.

Lemma addAnnualCost_NoDup (n : string) (x : number) (now : Z) (st : State) :
  NoDup (id <$> annualCosts st) ->
  Ledger.id_of_now now ∉ (id <$> annualCosts st) ->
  NoDup (id <$> annualCosts (Ledger.addAnnualCost n x now st)).
Proof.
  intros Hnd Hfresh. unfold Ledger.addAnnualCost. cbn zeta.
  destruct (Ledger.rejected _ _); [done|]. cbn.
  rewrite fmap_app. apply NoDup_app. repeat split; [done| |].
  - intros i Hi Hi'. cbn in Hi'.
    apply list_elem_of_singleton in Hi'. by subst i.
  - cbn. apply NoDup_singleton.
Qed.

(** The ids of a ledger after an action are ids it had before, or the
    clock reading of the action. *)
Lemma step_ids_subscriptions (st : State) (a : Session.Action) (i : string) :
  i ∈ (id <$> subscriptions (Session.step st a)) ->
  i ∈ (id <$> subscriptions st)
  \/ exists t, Session.clock a = Some t /\ i = Ledger.id_of_now t.
Proof.
  destruct (step_subscriptions st a) as [E|[[e E]|(l1 & e & l2 & E1 & E2)]].
  - rewrite E. by left.
  - destruct a as [n x now|n x now|id0|id0]; simpl in *.
    + unfold Ledger.addSubscription in *. cbn zeta in *.
      destruct (Ledger.rejected _ _); [by left|]. cbn.
      rewrite fmap_app, elem_of_app. cbn.
      intros [H|H%list_elem_of_singleton]; [by left|right; by exists now].
    + unfold Ledger.addAnnualCost. cbn zeta.
      destruct (Ledger.rejected _ _); by left.
    + apply (f_equal length) in E. rewrite length_app in E. cbn in E.
      unfold Ledger.removeSubscription in E. cbn zeta in E.
      destruct (_ =? _)%Z; [lia|]. cbn in E.
      match type of E with length (Ledger.splice1 ?k ?l) = _ =>
        unfold Ledger.splice1 in E; cbn zeta in E end.
      match type of E with length (delete ?k _) = _ =>
        pose proof (sublist_length _ _ (sublist_delete (subscriptions st) k))
      end.
      lia.
    + unfold Ledger.removeAnnualCost. cbn zeta.
      destruct (_ =? _)%Z; by left.
  - rewrite E2, E1, !fmap_app, !elem_of_app. cbn.
    intros [H|H]; left; [by left|right; by right].
Qed.

Lemma step_ids_annualCosts (st : State) (a : Session.Action) (i : string) :
  i ∈ (id <$> annualCosts (Session.step st a)) ->
  i ∈ (id <$> annualCosts st)
  \/ exists t, Session.clock a = Some t /\ i = Ledger.id_of_now t.
Proof.
  destruct a as [n x now|n x now|id0|id0]; simpl.
  - unfold Ledger.addSubscription. cbn zeta.
    destruct (Ledger.rejected _ _); by left.
  - unfold Ledger.addAnnualCost. cbn zeta.
    destruct (Ledger.rejected _ _); [by left|]. cbn.
    rewrite fmap_app, elem_of_app. cbn.
    intros [H|H%list_elem_of_singleton]; [by left|right; by exists now].
  - unfold Ledger.removeSubscription. cbn zeta.
    destruct (_ =? _)%Z; by left.
  - destruct (decide (Exists (fun e => id e = id0) (annualCosts st))) as [H|H].
    + destruct (first_with_id id0 _ H) as (l1 & e & l2 & Hl & Hl1 & He).
      rewrite (removeAnnualCost_present id0 st l1 e l2 Hl Hl1 He). cbn.
      rewrite Hl, !fmap_app, !elem_of_app. cbn.
      intros [Hi|Hi]; left; [by left|right; by right].
    + apply not_Exists_Forall in H; [|intros ?; apply _].
      rewrite removeAnnualCost_absent by done. by left.
Qed.

Lemma step_NoDup (st : State) (a : Session.Action) :
  NoDup (id <$> subscriptions st) -> NoDup (id <$> annualCosts st) ->
  (forall t, Session.clock a = Some t ->
     (Ledger.id_of_now t ∉ (id <$> subscriptions st))
     /\ (Ledger.id_of_now t ∉ (id <$> annualCosts st))) ->
  NoDup (id <$> subscriptions (Session.step st a))
  /\ NoDup (id <$> annualCosts (Session.step st a)).
Proof.
  intros Hs Hc Hfresh.
  destruct a as [n x now|n x now|id0|id0]; simpl.
  - destruct (Hfresh now eq_refl) as [Hf _]. split.
    + by apply addSubscription_NoDup.
    + unfold Ledger.addSubscription. cbn zeta.
      by destruct (Ledger.rejected _ _).
  - destruct (Hfresh now eq_refl) as [_ Hf]. split.
    + unfold Ledger.addAnnualCost. cbn zeta.
      by destruct (Ledger.rejected _ _).
    + by apply addAnnualCost_NoDup.
  - split; [by apply removeSubscription_NoDup|].
    unfold Ledger.removeSubscription. cbn zeta. by destruct (_ =? _)%Z.
  - split; [|by apply removeAnnualCost_NoDup].
    unfold Ledger.removeAnnualCost. cbn zeta. by destruct (_ =? _)%Z.
Qed.

Lemma id_of_now_inj (t u : Z) :
  Ledger.id_of_now t = Ledger.id_of_now u -> t = u.
Proof. unfold Ledger.id_of_now. apply pretty_Z_inj. Qed.

(** Distinct ids are kept along a sequence of actions whose clock readings
    are pairwise distinct and are not ids of the starting state. *)
Lemma run_NoDup (acts : list Session.Action) (st : State) :
  NoDup (id <$> subscriptions st) -> NoDup (id <$> annualCosts st) ->
  NoDup (Session.clocks acts) ->
  (forall t, t ∈ Session.clocks acts ->
     (Ledger.id_of_now t ∉ (id <$> subscriptions st))
     /\ (Ledger.id_of_now t ∉ (id <$> annualCosts st))) ->
  NoDup (id <$> subscriptions (Session.run st acts))
  /\ NoDup (id <$> annualCosts (Session.run st acts)).
Proof.
  revert st. induction acts as [|a acts IH]; intros st Hs Hc Hnd Hfresh.
  - done.
  - change (Session.run st (a :: acts))
      with (Session.run (Session.step st a) acts).
    assert (Hhead : forall t, Session.clock a = Some t ->
              (t ∉ Session.clocks acts) /\ NoDup (Session.clocks acts)
              /\ (t ∈ Session.clocks (a :: acts))).
    { intros t Ht. unfold Session.clocks in *. cbn in *. rewrite Ht in *.
      apply NoDup_cons in Hnd as [? ?]. repeat split; [done..|by left]. }
    assert (Htail : NoDup (Session.clocks acts)
              /\ forall t, t ∈ Session.clocks acts ->
                   t ∈ Session.clocks (a :: acts)).
    { unfold Session.clocks in *. cbn in *.
      destruct (Session.clock a); [|done].
      apply NoDup_cons in Hnd as [? ?]. split; [done|]. intros t Ht. by right. }
    destruct Htail as [Hnd' Hin].
    destruct (step_NoDup st a Hs Hc) as [Hs' Hc'].
    { intros t Ht. apply Hfresh. by apply (Hhead t Ht). }
    apply IH; [done..|].
    intros t Ht. destruct (Hfresh t (Hin t Ht)) as [Hfs Hfc].
    split; intros Hi.
    + apply step_ids_subscriptions in Hi as [Hi|(u & Hu & Eu)]; [done|].
      apply id_of_now_inj in Eu. subst u.
      by destruct (Hhead t Hu) as [? _].
    + apply step_ids_annualCosts in Hi as [Hi|(u & Hu & Eu)]; [done|].
      apply id_of_now_inj in Eu. subst u.
      by destruct (Hhead t Hu) as [? _].
Qed.

End IdFacts.

(** From the initial state, the ids of each ledger stay pairwise distinct
    as long as no two adds read the same value from the clock. *)
Theorem ids_distinct_when_clock_readings_distinct
    (acts : list Session.Action) :
  NoDup (Session.clocks acts) ->
  NoDup (id <$> subscriptions (Session.run Session.initial acts))
  /\ NoDup (id <$> annualCosts (Session.run Session.initial acts)).
Proof.
  intros Hnd. apply run_NoDup; [apply NoDup_nil_2..|done|].
  intros t _. cbn. split; apply not_elem_of_nil.
Qed.

Lemma ids_distinct_when_clock_readings_distinct_witness :
  let acts :=
    [Session.AddSubscription "Gym" (lit 25) 1730000000000;
     Session.AddSubscription "Music" (lit 10) 1730000000001;
     Session.RemoveSubscription "1730000000000";
     Session.AddAnnualCost "Car tax" (lit 190) 1730000000002] in
  NoDup (id <$> subscriptions (Session.run Session.initial acts))
  /\ NoDup (id <$> annualCosts (Session.run Session.initial acts)).
Proof.
  cbn zeta. apply ids_distinct_when_clock_readings_distinct.
  vm_compute. repeat constructor; intros H;
    repeat (apply elem_of_cons in H as [H|H]; [discriminate H|]);
    by apply not_elem_of_nil in H.
Defined.

(** C8, where the code breaks it.  Two subscriptions added while the clock
    shows the same millisecond end up with the same id: the ids of the
    ledger are not pairwise distinct. *)
Theorem same_millisecond_ids_collide :
  let st :=
    Session.run Session.initial
      [Session.AddSubscription "Gym" (lit 25) 1730000000000;
       Session.AddSubscription "Music" (lit 10) 1730000000000] in
  subscriptions st
  = [mkEntry "1730000000000" "Gym" (lit 25);
     mkEntry "1730000000000" "Music" (lit 10)]
  /\ ~ NoDup (id <$> subscriptions st).
Proof.
  cbn zeta. split; [reflexivity|].
  intros H. change (NoDup ["1730000000000"; "1730000000000"]) in H.
  apply NoDup_cons in H as [H _]. apply H. by left.
Qed.

(** * Further properties *)

(** ** Arithmetic of numbers *)

Section NumAlgebra.
Local Open Scope num_scope.

Lemma add_comm (x y : number) : x + y = y + x.
Proof.
  destruct x, y; simpl; try reflexivity. f_equal. apply Qcplus_comm.
Qed.

Lemma add_assoc (x y z : number) : x + (y + z) = x + y + z.
Proof.
  destruct x, y, z; simpl; try reflexivity. f_equal. apply Qcplus_assoc.
Qed.

Lemma add_zero_r (x : number) : x + lit 0 = x.
Proof.
  destruct x; simpl; try reflexivity. f_equal. apply Qcplus_0_r.
Qed.

Lemma sub_sub_add (x y z : number) : x - y - z = x - (y + z).
Proof.
  destruct x, y, z; simpl; try reflexivity. f_equal. ring.
Qed.

Lemma positive_nonneg (x : number) : Spec.positive x -> Inv.nonneg x.
Proof. destruct x; simpl; try tauto. apply Qclt_le_weak. Qed.

Lemma nonneg_add (x y : number) :
  Inv.nonneg x -> Inv.nonneg y -> Inv.nonneg (x + y).
Proof.
  destruct x, y; simpl; try tauto. apply Qcplus_nonneg.
Qed.

Lemma nonneg_positive_add (x y : number) :
  Inv.nonneg x -> Spec.positive y -> Spec.positive (x + y).
Proof.
  destruct x as [| | |a], y as [| | |b]; simpl; try tauto.
  intros Ha Hb. qc_lra.
Qed.

Lemma twelfth_positive : (0 < / Q2Qc 12)%Qc.
Proof. vm_compute. reflexivity. Qed.

Lemma div12_Fin (a : Qc) : Fin a / lit 12 = Fin (a / Q2Qc 12)%Qc.
Proof. apply div_Fin. by apply Q2Qc_nonzero. Qed.

Lemma nonneg_div12 (x : number) :
  Inv.nonneg x -> Inv.nonneg (x / lit 12).
Proof.
  destruct x as [| | |a]; try (simpl; tauto).
  intros Ha. rewrite div12_Fin. simpl in *. unfold Qcdiv.
  rewrite <- (Qcmult_0_l (/ Q2Qc 12)).
  apply Qcmult_le_compat_r; [done|]. apply Qclt_le_weak, twelfth_positive.
Qed.

Lemma positive_leb_zero (x : number) :
  Spec.positive x -> (x <=? lit 0) = false.
Proof.
  intros H. destruct (x <=? lit 0) eqn:E; [|done].
  assert (Hn : falsy x || (x <=? lit 0) = true) by (rewrite E; apply orb_true_r).
  by apply leb_zero_not_positive in Hn.
Qed.

Lemma nonneg_leb_zero (x : number) :
  Inv.nonneg x <-> (lit 0 <=? x) = true.
Proof.
  destruct x as [| | |a]; simpl; try (split; [tauto|discriminate]);
    try (split; [done|tauto]).
  by rewrite negb_true_iff, Qcltb_ge.
Qed.

Lemma nonneg_leb_refl (x : number) : Inv.nonneg x -> (x <=? x) = true.
Proof.
  destruct x as [| | |a]; simpl; try tauto.
  intros _. rewrite negb_true_iff. apply Qcltb_ge, Qcle_refl.
Qed.

Lemma nonneg_leb_add (x y : number) :
  Inv.nonneg x -> Inv.nonneg y -> (x <=? x + y) = true.
Proof.
  destruct x as [| | |a], y as [| | |b]; simpl; try tauto.
  intros Ha Hb. rewrite negb_true_iff. apply Qcltb_ge. qc_lra.
Qed.

End NumAlgebra.

(** ** What the page shows *)

Section ViewFacts.
Local Open Scope num_scope.

Lemma calculateLocally_inv (st : State) (r : CalculationResult) :
  Income.calculateLocally st = Some r ->
  exists v,
    Income.getAnnualIncome st = Some v /\ Spec.positive v
    /\ r = {| grossAnnual := v;
              grossMonthly := v / lit 12;
              monthlyTax :=
                if taxToggle_checked st
                then Tax.calculateAnnualTax v / lit 12 else lit 0;
              netMonthly :=
                v / lit 12
                - (if taxToggle_checked st
                   then Tax.calculateAnnualTax v / lit 12 else lit 0);
              taxEnabled := taxToggle_checked st |}.
Proof.
  intros Hr. destruct (Income.getAnnualIncome st) as [v|] eqn:E.
  - exists v. rewrite (calculateLocally_Some st v E) in Hr.
    injection Hr as <-. split; [done|]. split; [|done].
    by apply (getAnnualIncome_positive st).
  - by rewrite (calculateLocally_None st E) in Hr.
Qed.

Lemma getCurrentBalance_nonneg (st : State) :
  Inv.nonneg (Projection.getCurrentBalance st).
Proof.
  unfold Projection.getCurrentBalance. cbn zeta.
  destruct (currentBalance st) as [| | |q]; simpl; try apply Qcle_refl;
    try exact I.
  destruct (Qceqb q 0) eqn:E0; simpl; [apply Qcle_refl|].
  destruct (Qcltb q (Q2Qc 0)) eqn:E1; simpl; [apply Qcle_refl|].
  by apply Qcltb_ge in E1.
Qed.

Lemma series_last (s d : number) (m : Z) :
  (0 <= m)%Z ->
  last (Projection.buildProjectionSeries s d m)
  = Some {| month := m; balance := s + d * of_Z m |}.
Proof.
  intros Hm. rewrite last_lookup, buildProjectionSeries_length.
  replace (Init.Nat.pred (Z.to_nat (m + 1))) with (Z.to_nat m) by lia.
  rewrite buildProjectionSeries_lookup by lia.
  by rewrite Z2Nat.id by lia.
Qed.

Lemma series_months (s d : number) (m : Z) :
  View.updateChart_labels (Projection.buildProjectionSeries s d m)
  = seqZ 0 (m + 1).
Proof.
  unfold View.updateChart_labels. rewrite buildProjectionSeries_seqZ.
  rewrite <- list_fmap_compose. apply list_fmap_id.
Qed.

End ViewFacts.

(** The balance the projection starts from is never negative and never
    [NaN]: [getCurrentBalance] returns the value of the field when that is
    [>= 0] (plus infinity included) and 0 for a negative, empty or
    unparsable field. *)
Theorem getCurrentBalance_clamps (st : State) :
  Inv.nonneg (Projection.getCurrentBalance st)
  /\ (Inv.nonneg (currentBalance st) ->
      Projection.getCurrentBalance st = currentBalance st)
  /\ (~ Inv.nonneg (currentBalance st) ->
      Projection.getCurrentBalance st = lit 0).
Proof.
  split; [apply getCurrentBalance_nonneg|].
  unfold Projection.getCurrentBalance. cbn zeta.
  destruct (currentBalance st) as [| | |q]; simpl; try tauto.
  destruct (Qceqb q 0) eqn:E0; simpl.
  - apply Qceqb_eq in E0. subst q. split; reflexivity.
  - destruct (Qcltb q (Q2Qc 0)) eqn:E1; simpl.
    + apply Qcltb_lt in E1. split; [|done].
      intros H. by apply Qcle_not_lt in H.
    + apply Qcltb_ge in E1. split; [done|]. intros H. by destruct H.
Qed.

Lemma getCurrentBalance_clamps_witness :
  Projection.getCurrentBalance
    (mkState true true NaN NaN (lit 30000) (lit (-50)) [] [] 3) = lit 0.
Proof.
  refine (proj2 (proj2 (getCurrentBalance_clamps
            (mkState true true NaN NaN (lit 30000) (lit (-50)) [] [] 3))) _).
  intros H. vm_compute in H. apply H. reflexivity.
Defined.

(** One pass of [calculateMonthlyIncome]: without a valid income both
    panels show their empty message and the chart gets no point, whatever
    the ledgers hold; with a result whose gross monthly income is [> 0] the
    breakdown is shown, its last row is the disposable income, and that
    same amount is the monthly step of the series handed to the chart,
    which starts from the clamped balance. *)
Theorem calculateMonthlyIncome_shows (st : State) :
  (Income.getAnnualIncome st = None ->
     View.calculateMonthlyIncome st = (None, []))
  /\ (forall r, Income.calculateLocally st = Some r ->
      (grossMonthly r >? lit 0)%num = true ->
      exists rows,
        View.calculateMonthlyIncome st
        = (Some rows,
           Projection.buildProjectionSeries
             (Projection.getCurrentBalance st)
             (Projection.getDisposableMonthly st (Some r))
             (selectedProjectionMonths st))
        /\ last rows
           = Some ("Disposable income"%string,
                   Projection.getDisposableMonthly st (Some r))).
Proof.
  split.
  - intros H. unfold View.calculateMonthlyIncome. cbn zeta.
    by rewrite (calculateLocally_None st H).
  - intros r Hr Hg. unfold View.calculateMonthlyIncome. cbn zeta. rewrite Hr.
    unfold View.renderResult, Projection.renderProjection. cbn zeta.
    rewrite Hg, (positive_leb_zero _ (proj1 (gtb_zero_positive _) Hg)).
    eexists. split; [reflexivity|]. reflexivity.
Qed.

Lemma calculateMonthlyIncome_shows_witness :
  View.calculateMonthlyIncome
    (mkState false true (lit 0) (lit 40) NaN (lit 100)
       [mkEntry "1730000000000" "Gym" (lit 25)] [] 6) = (None, []).
Proof.
  apply (proj1 (calculateMonthlyIncome_shows
           (mkState false true (lit 0) (lit 40) NaN (lit 100)
              [mkEntry "1730000000000" "Gym" (lit 25)] [] 6))).
  reflexivity.
Defined.

(** With a result whose gross monthly income is [> 0] and a horizon
    [>= 0], the projected balance shown as text is the balance of the last
    point of the chart, the month of that point is the horizon, and the
    labels of the chart are the months from 0 to the horizon.  With a
    negative horizon the text is still shown and the chart is empty. *)
Theorem projected_balance_is_last_point (st : State) (r : CalculationResult) :
  (grossMonthly r >? lit 0)%num = true ->
  exists p,
    View.renderProjection_projected st (Some r) = Some p
    /\ ((0 <= selectedProjectionMonths st)%Z ->
        last (Projection.renderProjection st (Some r))
        = Some {| month := selectedProjectionMonths st; balance := p |}
        /\ View.updateChart_labels (Projection.renderProjection st (Some r))
           = seqZ 0 (selectedProjectionMonths st + 1))
    /\ ((selectedProjectionMonths st < 0)%Z ->
        Projection.renderProjection st (Some r) = []).
Proof.
  intros Hg. apply gtb_zero_positive in Hg.
  unfold View.renderProjection_projected, Projection.renderProjection.
  cbn zeta. rewrite (positive_leb_zero _ Hg).
  eexists. split; [reflexivity|]. split.
  - intros Hm. split; [by apply series_last|apply series_months].
  - intros Hm. rewrite buildProjectionSeries_seqZ. by rewrite seqZ_nil by lia.
Qed.

Lemma projected_balance_is_last_point_witness :
  let st := mkState true false NaN NaN (lit 12000) (lit 500)
              [mkEntry "1730000000000" "Rent" (lit 1200)] [] 3 in
  let r := mkResult (lit 12000) (lit 1000) (lit 0) (lit 1000) false in
  exists p,
    View.renderProjection_projected st (Some r) = Some p
    /\ last (Projection.renderProjection st (Some r))
       = Some {| month := 3; balance := p |}.
Proof.
  cbn zeta.
  destruct (projected_balance_is_last_point
              (mkState true false NaN NaN (lit 12000) (lit 500)
                 [mkEntry "1730000000000" "Rent" (lit 1200)] [] 3)
              (mkResult (lit 12000) (lit 1000) (lit 0) (lit 1000) false))
    as (p & Hp & Hlast & _); [reflexivity|].
  exists p. split; [exact Hp|]. apply Hlast. simpl. lia.
Defined.

Section PdfFacts.
Local Open Scope num_scope.

Lemma nonneg_add_zero_times (b : number) (m : Z) :
  Inv.nonneg b -> b + lit 0 * of_Z m = b.
Proof.
  destruct b as [| | |q]; simpl; try tauto.
  intros _. f_equal. ring.
Qed.

End PdfFacts.

(** The PDF summary.  Without a valid income it prints 0 for gross, tax,
    net and disposable income, even when the total expenses it prints are
    not 0, and its projected balance is the current balance.  With a
    result whose gross monthly income is [> 0], its net income is the net
    monthly income of the result, and its disposable income and projected
    balance are the ones the page shows. *)
Theorem exportToPdf_summary (st : State) :
  (forall r, Income.calculateLocally st = Some r ->
     (grossMonthly r >? lit 0)%num = true ->
     View.pdf_netIncome (View.exportToPdf st) = netMonthly r
     /\ (exists rows,
           View.renderResult st (Some r) = Some rows
           /\ last rows
              = Some ("Disposable income"%string,
                      View.pdf_disposable (View.exportToPdf st)))
     /\ View.renderProjection_projected st (Some r)
        = Some (View.pdf_projectedBalance (View.exportToPdf st)))
  /\ (Income.calculateLocally st = None ->
      View.pdf_grossMonthly (View.exportToPdf st) = lit 0
      /\ View.pdf_monthlyTax (View.exportToPdf st) = lit 0
      /\ View.pdf_netIncome (View.exportToPdf st) = lit 0
      /\ View.pdf_disposable (View.exportToPdf st) = lit 0
      /\ View.pdf_totalExpenses (View.exportToPdf st)
         = (Ledger.getSubscriptionsTotal st
            + Ledger.getAnnualCostsMonthlyTotal st)%num
      /\ View.pdf_projectedBalance (View.exportToPdf st)
         = View.pdf_currentBalance (View.exportToPdf st)).
Proof.
  split.
  - intros r Hr Hg. unfold View.exportToPdf. cbn zeta. rewrite Hr.
    cbn [View.pdf_netIncome View.pdf_disposable View.pdf_projectedBalance].
    split; [done|]. split.
    + unfold View.renderResult. rewrite Hg. eexists.
      split; [reflexivity|]. reflexivity.
    + unfold View.renderProjection_projected. cbn zeta.
      by rewrite (positive_leb_zero _ (proj1 (gtb_zero_positive _) Hg)).
  - intros Hr. unfold View.exportToPdf. cbn zeta. rewrite Hr. cbn.
    repeat split.
    apply nonneg_add_zero_times, getCurrentBalance_nonneg.
Qed.

Lemma exportToPdf_summary_witness :
  let st := mkState false true (lit 0) (lit 40) NaN (lit 100)
              [mkEntry "1730000000000" "Gym" (lit 25)] [] 6 in
  View.pdf_disposable (View.exportToPdf st) = lit 0
  /\ View.pdf_totalExpenses (View.exportToPdf st) = lit 25
  /\ View.pdf_projectedBalance (View.exportToPdf st) = lit 100.
Proof.
  cbn zeta.
  assert (H : Income.calculateLocally
                (mkState false true (lit 0) (lit 40) NaN (lit 100)
                   [mkEntry "1730000000000" "Gym" (lit 25)] [] 6) = None)
    by reflexivity.
  destruct (proj2 (exportToPdf_summary _) H) as (_ & _ & _ & Hd & He & Hp).
  split; [exact Hd|]. split.
  - rewrite He. vm_compute. apply (f_equal Fin), Qc_is_canon. reflexivity.
  - rewrite Hp. vm_compute. apply (f_equal Fin), Qc_is_canon. reflexivity.
Defined.

Section ApiFacts.
Local Open Scope num_scope.

Lemma api_guard_annual (x : number) :
  falsy x || (x <=? lit 0) = negb (x >? lit 0).
Proof.
  destruct (x >? lit 0) eqn:E; simpl.
  - apply gtb_zero_positive in E.
    destruct (falsy x || (x <=? lit 0)) eqn:G; [|done].
    by apply leb_zero_not_positive in G.
  - by apply leb_zero_not_positive, gtb_zero_not_positive.
Qed.

Lemma api_guard_hourly (x y : number) :
  falsy x || falsy y || (x <=? lit 0) || (y <=? lit 0)
  = negb ((x >? lit 0) && (y >? lit 0)).
Proof.
  rewrite negb_andb, <- !api_guard_annual.
  destruct (falsy x), (falsy y), (x <=? lit 0), (y <=? lit 0); reflexivity.
Qed.

End ApiFacts.

(** The remote path validates as the local one: [calculateViaAPI] builds a
    request exactly when [getAnnualIncome] returns an income, so the two
    differently written guards agree on every input, [NaN] and the
    infinities included; the request carries the values of the fields of
    the selected mode and the state of the tax switch. *)
Theorem calculateViaAPI_validates_as_local (st : State) :
  (View.calculateViaAPI_body st = None <-> Income.getAnnualIncome st = None)
  /\ (forall b, View.calculateViaAPI_body st = Some b ->
      b = if toggle_checked st
          then View.AnnualBody (annualSalary st) (taxToggle_checked st)
          else View.HourlyBody (hourlyRate st) (hoursPerWeek st)
                 (taxToggle_checked st)).
Proof.
  unfold View.calculateViaAPI_body, Income.getAnnualIncome. cbn zeta.
  destruct (toggle_checked st).
  - rewrite api_guard_annual.
    destruct (annualSalary st >? lit 0)%num; simpl; split;
      try (split; congruence); intros b [= <-]; reflexivity.
  - rewrite api_guard_hourly.
    destruct (hourlyRate st >? lit 0)%num, (hoursPerWeek st >? lit 0)%num;
      simpl; split; try (split; congruence); intros b [= <-]; reflexivity.
Qed.

Lemma calculateViaAPI_validates_as_local_witness :
  View.calculateViaAPI_body
    (mkState false true (lit 20) NaN (lit 30000) NaN [] [] 3) = None
  /\ Income.getAnnualIncome
       (mkState true false NaN NaN PosInf NaN [] [] 3) <> None.
Proof.
  split.
  - apply (proj1 (calculateViaAPI_validates_as_local
                    (mkState false true (lit 20) NaN (lit 30000) NaN [] [] 3))).
    reflexivity.
  - intros H.
    apply (proj1 (calculateViaAPI_validates_as_local
                    (mkState true false NaN NaN PosInf NaN [] [] 3))) in H.
    discriminate H.
Defined.

(** ** Names and amounts of the entries *)

Section TrimFacts.

Lemma append_assoc (s1 s2 s3 : string) :
  String.append (String.append s1 s2) s3
  = String.append s1 (String.append s2 s3).
Proof.
  induction s1 as [|c s1 IH]; [done|].
  change (String c (String.append (String.append s1 s2) s3)
          = String c (String.append s1 (String.append s2 s3))).
  by f_equal.
Qed.

Lemma rev_app_append (s1 s2 : string) :
  String.rev_app s1 s2 = String.append (String.rev s1) s2.
Proof.
  unfold String.rev. revert s2.
  induction s1 as [|c s1 IH]; intros s2; simpl; [done|].
  rewrite (IH (String c s2)), (IH (String c EmptyString)).
  by rewrite append_assoc.
Qed.

Lemma rev_cons (c : ascii) (s : string) :
  String.rev (String c s)
  = String.append (String.rev s) (String c EmptyString).
Proof. unfold String.rev at 1. simpl. apply rev_app_append. Qed.

Lemma rev_snoc (c : ascii) (s : string) :
  String.rev (String.append s (String c EmptyString))
  = String c (String.rev s).
Proof.
  induction s as [|a s IH]; [done|].
  change (String.rev (String a (String.append s (String c EmptyString)))
          = String c (String.rev (String a s))).
  by rewrite !rev_cons, IH.
Qed.

Lemma rev_involutive (s : string) : String.rev (String.rev s) = s.
Proof.
  induction s as [|c s IH]; [done|].
  by rewrite rev_cons, rev_snoc, IH.
Qed.

Lemma trimStart_snoc (u : string) (c : ascii) :
  Ledger.is_whitespace c = false ->
  Ledger.trimStart (String.append u (String c EmptyString))
  = String.append (Ledger.trimStart u) (String c EmptyString).
Proof.
  intros Hc. induction u as [|a u IH].
  - change (Ledger.trimStart (String c EmptyString) = String c EmptyString).
    cbn [Ledger.trimStart]. by rewrite Hc.
  - change (Ledger.trimStart
              (String a (String.append u (String c EmptyString)))
            = String.append (Ledger.trimStart (String a u))
                (String c EmptyString)).
    cbn [Ledger.trimStart]. by destruct (Ledger.is_whitespace a).
Qed.

Lemma trimEnd_cons (c : ascii) (r : string) :
  Ledger.is_whitespace c = false ->
  Ledger.trimEnd (String c r) = String c (Ledger.trimEnd r).
Proof.
  intros Hc. unfold Ledger.trimEnd.
  by rewrite rev_cons, trimStart_snoc, rev_snoc.
Qed.

(** The result of [trimStart] is empty or starts with a character that is
    not white space. *)
Lemma trimStart_head (s : string) :
  Ledger.trimStart s = EmptyString
  \/ exists c r,
       Ledger.trimStart s = String c r /\ Ledger.is_whitespace c = false.
Proof.
  induction s as [|a s IH]; simpl; [by left|].
  destruct (Ledger.is_whitespace a) eqn:Ha; [done|].
  right. by exists a, s.
Qed.

Lemma trimStart_idem (s : string) :
  Ledger.trimStart (Ledger.trimStart s) = Ledger.trimStart s.
Proof.
  destruct (trimStart_head s) as [->|(c & r & -> & Hc)]; [done|].
  simpl. by rewrite Hc.
Qed.

Lemma trimEnd_idem (s : string) :
  Ledger.trimEnd (Ledger.trimEnd s) = Ledger.trimEnd s.
Proof.
  unfold Ledger.trimEnd. by rewrite rev_involutive, trimStart_idem.
Qed.

(** The result of [trim] is empty or starts with a character that is not
    white space. *)
Lemma trim_head (s : string) :
  Ledger.trim s = EmptyString
  \/ exists c r, Ledger.trim s = String c r /\ Ledger.is_whitespace c = false.
Proof.
  unfold Ledger.trim.
  destruct (trimStart_head s) as [->|(c & r & -> & Hc)]; [by left|].
  right. exists c, (Ledger.trimEnd r). by rewrite trimEnd_cons.
Qed.

Lemma trim_idem (s : string) : Ledger.trim (Ledger.trim s) = Ledger.trim s.
Proof.
  destruct (trim_head s) as [E|(c & r & E & Hc)].
  - by rewrite E.
  - unfold Ledger.trim at 1. rewrite E. simpl. rewrite Hc.
    rewrite <- E. unfold Ledger.trim. apply trimEnd_idem.
Qed.

(** The result of [trim] is empty or ends with a character that is not
    white space. *)
Lemma trim_last (s : string) :
  Ledger.trim s = EmptyString
  \/ exists c r,
       Ledger.trim s = String.append r (String c EmptyString)
       /\ Ledger.is_whitespace c = false.
Proof.
  unfold Ledger.trim, Ledger.trimEnd.
  destruct (trimStart_head (String.rev (Ledger.trimStart s)))
    as [->|(c & r & -> & Hc)]; [by left|].
  right. exists c, (String.rev r). by rewrite rev_cons.
Qed.

Lemma trim_no_outer_space (s : string) : Inv.no_outer_space (Ledger.trim s).
Proof.
  split; intros c r E.
  - destruct (trim_head s) as [E'|(c' & r' & E' & Hc)]; [congruence|].
    rewrite E' in E. by injection E as <- _.
  - destruct (trim_last s) as [E'|(c' & r' & E' & Hc)].
    + rewrite E' in E. by destruct r.
    + rewrite E' in E. apply (f_equal String.rev) in E.
      rewrite !rev_snoc in E. by injection E as <- _.
Qed.

End TrimFacts.

Section EntryFacts.
Local Open Scope num_scope.

Lemma rejected_false_inv (n : string) (x : number) :
  Ledger.rejected n x = false -> n <> EmptyString /\ Spec.positive x.
Proof.
  intros H. split.
  - intros ->. assert (Ledger.rejected EmptyString x = true) as E
      by (apply rejected_true; by left).
    congruence.
  - destruct (x >? lit 0) eqn:E; [by apply gtb_zero_positive|].
    apply gtb_zero_not_positive in E.
    assert (Ledger.rejected n x = true) as E'
      by (apply rejected_true; by right).
    congruence.
Qed.

Lemma step_entry_ok (st : State) (a : Session.Action) :
  Forall Inv.entry_ok (subscriptions st) ->
  Forall Inv.entry_ok (annualCosts st) ->
  Forall Inv.entry_ok (subscriptions (Session.step st a))
  /\ Forall Inv.entry_ok (annualCosts (Session.step st a)).
Proof.
  intros Hs Hc. destruct a as [n x now|n x now|id0|id0]; simpl.
  - unfold Ledger.addSubscription. cbn zeta.
    destruct (Ledger.rejected _ _) eqn:E; [done|]. cbn. split; [|done].
    apply Forall_app_2; [done|]. apply Forall_singleton.
    apply rejected_false_inv in E as [Hn Hx].
    split; [done|]. split; [apply trim_no_outer_space|done].
  - unfold Ledger.addAnnualCost. cbn zeta.
    destruct (Ledger.rejected _ _) eqn:E; [done|]. cbn. split; [done|].
    apply Forall_app_2; [done|]. apply Forall_singleton.
    apply rejected_false_inv in E as [Hn Hx].
    split; [done|]. split; [apply trim_no_outer_space|done].
  - unfold Ledger.removeSubscription. cbn zeta.
    destruct (_ =? _)%Z; [done|]. cbn. split; [|done].
    unfold Ledger.splice1. cbn zeta. by apply Forall_delete.
  - unfold Ledger.removeAnnualCost. cbn zeta.
    destruct (_ =? _)%Z; [done|]. cbn. split; [done|].
    unfold Ledger.splice1. cbn zeta. by apply Forall_delete.
Qed.

Lemma run_entry_ok (acts : list Session.Action) (st : State) :
  Forall Inv.entry_ok (subscriptions st) ->
  Forall Inv.entry_ok (annualCosts st) ->
  Forall Inv.entry_ok (subscriptions (Session.run st acts))
  /\ Forall Inv.entry_ok (annualCosts (Session.run st acts)).
Proof.
  revert st. induction acts as [|a acts IH]; intros st Hs Hc; [done|].
  change (Session.run st (a :: acts))
    with (Session.run (Session.step st a) acts).
  destruct (step_entry_ok st a Hs Hc). by apply IH.
Qed.

End EntryFacts.

(** Whatever sequence of adds and removes led to a state, every entry of
    its two ledgers has a name that is not empty and neither starts nor
    ends with white space, and an amount [> 0]. *)
Theorem reachable_entries_ok (st : State) :
  Inv.reachable st ->
  Forall Inv.entry_ok (subscriptions st)
  /\ Forall Inv.entry_ok (annualCosts st).
Proof.
  intros [acts ->]. apply run_entry_ok; apply Forall_nil_2.
Qed.

Lemma reachable_entries_ok_witness :
  let st :=
    Session.run Session.initial
      [Session.AddSubscription "  Gym " (lit 25) 1730000000000;
       Session.AddSubscription "   " (lit 10) 1730000000001;
       Session.AddAnnualCost "Car tax" (lit (-5)) 1730000000002;
       Session.AddAnnualCost " TV licence" (lit 174.5) 1730000000003;
       Session.RemoveSubscription "17"] in
  Forall Inv.entry_ok (subscriptions st)
  /\ Forall Inv.entry_ok (annualCosts st).
Proof.
  cbn zeta. apply reachable_entries_ok. eexists. reflexivity.
Defined.

(** ** Totals of the ledgers *)

Section TotalFacts.
Local Open Scope num_scope.

Lemma add_zero_l (x : number) : lit 0 + x = x.
Proof. by rewrite add_comm, add_zero_r. Qed.

(** The sum the two [reduce] calls compute, started from any value. *)
Lemma reduce_from (a : number) (l : list Entry) :
  foldl (fun sum e => sum + amount e) a l
  = a + foldl (fun sum e => sum + amount e) (lit 0) l.
Proof.
  revert a. induction l as [|e l IH]; intros a; cbn [foldl].
  - by rewrite add_zero_r.
  - rewrite (IH (a + amount e)), (IH (lit 0 + amount e)).
    by rewrite add_zero_l, add_assoc.
Qed.

Lemma reduce_middle (l1 : list Entry) (e : Entry) (l2 : list Entry) :
  foldl (fun sum e => sum + amount e) (lit 0) (l1 ++ e :: l2)
  = foldl (fun sum e => sum + amount e) (lit 0) (l1 ++ l2) + amount e.
Proof.
  rewrite !foldl_app. cbn [foldl].
  rewrite (reduce_from (_ + amount e)), (reduce_from (foldl _ _ l1) l2).
  rewrite <- !add_assoc. f_equal. apply add_comm.
Qed.

Lemma reduce_nonneg (a : number) (l : list Entry) :
  Inv.nonneg a -> Forall (fun e => Spec.positive (amount e)) l ->
  Inv.nonneg (foldl (fun sum e => sum + amount e) a l).
Proof.
  intros Ha Hl. revert a Ha.
  induction Hl as [|e l He _ IH]; intros a Ha; cbn [foldl]; [done|].
  apply IH, positive_nonneg. by apply nonneg_positive_add.
Qed.

Lemma reduce_positive (a : number) (l : list Entry) :
  Inv.nonneg a -> Forall (fun e => Spec.positive (amount e)) l ->
  l <> [] ->
  Spec.positive (foldl (fun sum e => sum + amount e) a l).
Proof.
  intros Ha Hl Hne. destruct Hl as [|e l He Hl]; [done|]. cbn [foldl].
  rewrite reduce_from.
  rewrite add_comm. apply nonneg_positive_add.
  - by apply reduce_nonneg; [apply Qcle_refl|].
  - by apply nonneg_positive_add.
Qed.

Lemma entry_ok_amounts (l : list Entry) :
  Forall Inv.entry_ok l -> Forall (fun e => Spec.positive (amount e)) l.
Proof.
  intros H. eapply Forall_impl; [exact H|]. by intros e (_ & _ & He).
Qed.

Lemma positive_not_zero (x : number) : Spec.positive x -> x <> lit 0.
Proof.
  intros H ->. simpl in H. by apply Qclt_not_eq in H.
Qed.


Lemma set_subscriptions_same (st : State) :
  set_subscriptions (subscriptions st) st = st.
Proof. by destruct st. Qed.

Lemma set_annualCosts_same (st : State) :
  set_annualCosts (annualCosts st) st = st.
Proof. by destruct st. Qed.

End TotalFacts.

(** How the totals follow the ledgers.  An accepted add makes the total of
    its ledger the total before plus the amount added; and in a state
    reached by adds and removes, a remove never raises the total of its
    ledger. *)
Theorem totals_follow_ledger (st : State) :
  (forall n x now,
     Ledger.trim n <> EmptyString -> Spec.positive x ->
     Ledger.getSubscriptionsTotal (Ledger.addSubscription n x now st)
     = (Ledger.getSubscriptionsTotal st + x)%num
     /\ Ledger.getAnnualCostsAnnualTotal (Ledger.addAnnualCost n x now st)
        = (Ledger.getAnnualCostsAnnualTotal st + x)%num)
  /\ (Inv.reachable st ->
      forall id0,
        (Ledger.getSubscriptionsTotal (Ledger.removeSubscription id0 st)
         <=? Ledger.getSubscriptionsTotal st)%num = true
        /\ (Ledger.getAnnualCostsAnnualTotal (Ledger.removeAnnualCost id0 st)
            <=? Ledger.getAnnualCostsAnnualTotal st)%num = true).
Proof.
  split.
  - intros n x now Hn Hx.
    rewrite addSubscription_accepted, addAnnualCost_accepted by done.
    unfold Ledger.getSubscriptionsTotal, Ledger.getAnnualCostsAnnualTotal.
    cbn. by rewrite !foldl_snoc.
  - intros [acts ->] id0.
    destruct (run_entry_ok acts Session.initial) as [Hs Hc];
      [apply Forall_nil_2..|].
    apply entry_ok_amounts in Hs, Hc.
    set (st := Session.run Session.initial acts) in *.
    assert (H0 : Inv.nonneg (lit 0)) by apply Qcle_refl.
    split.
    + destruct (decide (Exists (fun e => id e = id0) (subscriptions st)))
        as [H|H].
      * destruct (first_with_id id0 _ H) as (l1 & e & l2 & Hl & Hl1 & He).
        rewrite (removeSubscription_present id0 st l1 e l2 Hl Hl1 He).
        unfold Ledger.getSubscriptionsTotal. cbn. rewrite Hl in *.
        rewrite reduce_middle.
        apply Forall_app in Hs as [Hs1 [He' Hs2]%Forall_cons].
        apply nonneg_leb_add; [|by apply positive_nonneg].
        apply reduce_nonneg; [done|by apply Forall_app_2].
      * apply not_Exists_Forall in H; [|intros ?; apply _].
        rewrite (removeSubscription_absent id0 st H).
        apply nonneg_leb_refl. by apply reduce_nonneg.
    + destruct (decide (Exists (fun e => id e = id0) (annualCosts st)))
        as [H|H].
      * destruct (first_with_id id0 _ H) as (l1 & e & l2 & Hl & Hl1 & He).
        rewrite (removeAnnualCost_present id0 st l1 e l2 Hl Hl1 He).
        unfold Ledger.getAnnualCostsAnnualTotal. cbn. rewrite Hl in *.
        rewrite reduce_middle.
        apply Forall_app in Hc as [Hc1 [He' Hc2]%Forall_cons].
        apply nonneg_leb_add; [|by apply positive_nonneg].
        apply reduce_nonneg; [done|by apply Forall_app_2].
      * apply not_Exists_Forall in H; [|intros ?; apply _].
        rewrite (removeAnnualCost_absent id0 st H).
        apply nonneg_leb_refl. by apply reduce_nonneg.
Qed.

Lemma totals_follow_ledger_witness :
  let st :=
    Session.run Session.initial
      [Session.AddSubscription "Music" (lit 9.99) 1730000000000;
       Session.AddSubscription "Films" (lit 15) 1730000000001] in
  (Ledger.getSubscriptionsTotal
     (Ledger.removeSubscription "1730000000000" st)
   <=? Ledger.getSubscriptionsTotal st)%num = true.
Proof.
  cbn zeta.
  refine (proj1 (proj2 (totals_follow_ledger _) _ "1730000000000"%string)).
  eexists. reflexivity.
Defined.

(** In a state reached by adds and removes, the totals are never [NaN] and
    never negative: the subscriptions total, the annual total and its
    monthly equivalent are [>= 0], and a total is 0 exactly when its ledger
    is empty. *)
Theorem reachable_totals_nonneg (st : State) :
  Inv.reachable st ->
  Inv.nonneg (Ledger.getSubscriptionsTotal st)
  /\ Inv.nonneg (Ledger.getAnnualCostsAnnualTotal st)
  /\ Inv.nonneg (Ledger.getAnnualCostsMonthlyTotal st)
  /\ (Ledger.getSubscriptionsTotal st = lit 0 <-> subscriptions st = [])
  /\ (Ledger.getAnnualCostsAnnualTotal st = lit 0 <-> annualCosts st = []).
Proof.
  intros [acts ->].
  destruct (run_entry_ok acts Session.initial) as [Hs Hc];
    [apply Forall_nil_2..|].
  apply entry_ok_amounts in Hs, Hc.
  set (st := Session.run Session.initial acts) in *.
  assert (H0 : Inv.nonneg (lit 0)) by apply Qcle_refl.
  unfold Ledger.getAnnualCostsMonthlyTotal, Ledger.getSubscriptionsTotal,
    Ledger.getAnnualCostsAnnualTotal.
  split; [by apply reduce_nonneg|]. split; [by apply reduce_nonneg|].
  split; [by apply nonneg_div12, reduce_nonneg|].
  split; split.
  - intros E. destruct (subscriptions st) as [|e l] eqn:El; [done|].
    exfalso. eapply positive_not_zero; [|exact E].
    by apply reduce_positive.
  - by intros ->.
  - intros E. destruct (annualCosts st) as [|e l] eqn:El; [done|].
    exfalso. eapply positive_not_zero; [|exact E].
    by apply reduce_positive.
  - by intros ->.
Qed.

Lemma reachable_totals_nonneg_witness :
  let st :=
    Session.run Session.initial
      [Session.AddSubscription "Music" (lit 9.99) 1730000000000;
       Session.AddAnnualCost "Insurance" PosInf 1730000000001] in
  Inv.nonneg (Ledger.getSubscriptionsTotal st)
  /\ Inv.nonneg (Ledger.getAnnualCostsAnnualTotal st)
  /\ Inv.nonneg (Ledger.getAnnualCostsMonthlyTotal st)
  /\ (Ledger.getSubscriptionsTotal st = lit 0 <-> subscriptions st = [])
  /\ (Ledger.getAnnualCostsAnnualTotal st = lit 0 <-> annualCosts st = []).
Proof.
  cbn zeta. apply reachable_totals_nonneg. eexists. reflexivity.
Defined.

(** ** Add followed by remove *)

Section UndoFacts.

Lemma fresh_id_Forall (i : string) (l : list Entry) :
  i ∉ (id <$> l) -> Forall (fun e => id e <> i) l.
Proof.
  intros H. apply Forall_forall. intros e He Hi. apply H.
  rewrite <- Hi. by apply list_elem_of_fmap_2.
Qed.

End UndoFacts.

(** Removing the id an add has just used undoes the add, when no entry of
    the ledger had that id before: the state is again the one before the
    add, whether the add was accepted or rejected. *)
Theorem remove_undoes_add (st : State) (n : string) (x : number) (now : Z) :
  (Ledger.id_of_now now ∉ (id <$> subscriptions st) ->
     Ledger.removeSubscription (Ledger.id_of_now now)
       (Ledger.addSubscription n x now st) = st)
  /\ (Ledger.id_of_now now ∉ (id <$> annualCosts st) ->
      Ledger.removeAnnualCost (Ledger.id_of_now now)
        (Ledger.addAnnualCost n x now st) = st).
Proof.
  split; intros Hfresh; apply fresh_id_Forall in Hfresh.
  - unfold Ledger.addSubscription. cbn zeta.
    destruct (Ledger.rejected _ _); [by apply removeSubscription_absent|].
    erewrite removeSubscription_present;
      [|cbn; reflexivity|exact Hfresh|reflexivity].
    rewrite app_nil_r. by destruct st.
  - unfold Ledger.addAnnualCost. cbn zeta.
    destruct (Ledger.rejected _ _); [by apply removeAnnualCost_absent|].
    erewrite removeAnnualCost_present;
      [|cbn; reflexivity|exact Hfresh|reflexivity].
    rewrite app_nil_r. by destruct st.
Qed.

Lemma remove_undoes_add_witness :
  let st :=
    set_subscriptions [mkEntry "1730000000000" "Music" (lit 9.99)]
      Session.initial in
  Ledger.removeSubscription (Ledger.id_of_now 1730000000001)
    (Ledger.addSubscription "Films" (lit 15) 1730000000001 st) = st.
Proof.
  cbn zeta.
  apply (proj1 (remove_undoes_add _ "Films" (lit 15) 1730000000001)).
  cbn. intros H. apply list_elem_of_singleton in H. discriminate H.
Defined.

(** When an entry of the ledger already has the id an accepted add uses,
    removing that id deletes the oldest entry with the id and the entry
    just added stays, at the end of the ledger. *)
Theorem remove_after_colliding_add (st : State) (n : string) (x : number)
    (now : Z) (l1 : list Entry) (e : Entry) (l2 : list Entry) :
  subscriptions st = l1 ++ e :: l2 ->
  Forall (fun y => id y <> Ledger.id_of_now now) l1 ->
  id e = Ledger.id_of_now now ->
  Ledger.trim n <> EmptyString -> Spec.positive x ->
  subscriptions
    (Ledger.removeSubscription (Ledger.id_of_now now)
       (Ledger.addSubscription n x now st))
  = l1 ++ l2 ++ [mkEntry (Ledger.id_of_now now) (Ledger.trim n) x].
Proof.
  intros Hl Hl1 He Hn Hx.
  rewrite addSubscription_accepted by done.
  erewrite (removeSubscription_present _ _ l1 e
              (l2 ++ [mkEntry (Ledger.id_of_now now) (Ledger.trim n) x]));
    [done| |done|done].
  cbn. rewrite Hl. by rewrite <- app_assoc.
Qed.

Lemma remove_after_colliding_add_witness :
  let st :=
    set_subscriptions [mkEntry "1730000000000" "Music" (lit 9.99)]
      Session.initial in
  subscriptions
    (Ledger.removeSubscription (Ledger.id_of_now 1730000000000)
       (Ledger.addSubscription "Films" (lit 15) 1730000000000 st))
  = [] ++ [] ++ [mkEntry (Ledger.id_of_now 1730000000000)
                   (Ledger.trim "Films") (lit 15)].
Proof.
  cbn zeta.
  apply (remove_after_colliding_add _ "Films" (lit 15) 1730000000000 []
           (mkEntry "1730000000000" "Music" (lit 9.99)) []).
  - reflexivity.
  - constructor.
  - reflexivity.
  - vm_compute. discriminate.
  - vm_compute. reflexivity.
Defined.

(** ** Disposable income *)

Section DisposableFacts.
Local Open Scope num_scope.

Lemma sub_nonneg_le (x a : number) :
  Inv.nonneg a -> x - a = NaN \/ (x - a <=? x) = true.
Proof.
  destruct x as [| | |p], a as [| | |q]; simpl; try tauto.
  intros Hq. right. rewrite negb_true_iff. apply Qcltb_ge. qc_lra.
Qed.



End DisposableFacts.



(** ** Shape of the projection *)

Section SeriesFacts.
Local Open Scope num_scope.

Lemma Qc_of_Z_nonneg (i : Z) : (0 <= i)%Z -> (0 <= Qc_of_Z i)%Qc.
Proof.
  intros Hi. unfold Qcle, Qc_of_Z. cbn [this].
  change (this 0%Qc) with (inject_Z 0). by rewrite <- Zle_Qle.
Qed.

Lemma series_point_inv (s d : number) (m : Z) (p : Point) :
  p ∈ Projection.buildProjectionSeries s d m ->
  (0 <= month p <= m)%Z /\ balance p = s + d * of_Z (month p).
Proof.
  rewrite buildProjectionSeries_seqZ. intros (k & -> & Hk)%list_elem_of_fmap.
  apply elem_of_seqZ in Hk. simpl. split; [lia|done].
Qed.

End SeriesFacts.

(** A longer horizon only appends: the series for [m + 1] months is the
    series for [m] months followed by the point of month [m + 1], so the
    points already drawn do not change when the horizon grows. *)
Theorem series_extends (s d : number) (m : Z) :
  (-1 <= m)%Z ->
  Projection.buildProjectionSeries s d (m + 1)
  = Projection.buildProjectionSeries s d m
    ++ [ {| month := m + 1; balance := (s + d * of_Z (m + 1))%num |} ].
Proof.
  intros Hm. rewrite !buildProjectionSeries_seqZ.
  replace (m + 1 + 1)%Z with ((m + 1) + 1)%Z by lia.
  rewrite (seqZ_app 0 (m + 1) 1) by lia.
  rewrite fmap_app. f_equal.
Qed.

Lemma series_extends_witness :
  Projection.buildProjectionSeries (lit 1000) (lit 200) (2 + 1)
  = Projection.buildProjectionSeries (lit 1000) (lit 200) 2
    ++ [ {| month := 2 + 1;
            balance := (lit 1000 + lit 200 * of_Z (2 + 1))%num |} ].
Proof. apply series_extends. lia. Defined.

(** On real arguments and a horizon [>= 0], the series starts at the start
    balance, no balance is below the start when the monthly delta is not
    negative, and none is above it when the delta is not positive. *)
Theorem series_is_linear (s d : Qc) (m : Z) :
  (0 <= m)%Z ->
  Projection.buildProjectionSeries (Fin s) (Fin d) m !! 0%nat
  = Some {| month := 0; balance := Fin s |}
  /\ ((0 <= d)%Qc ->
      forall p, p ∈ Projection.buildProjectionSeries (Fin s) (Fin d) m ->
        (Fin s <=? balance p)%num = true)
  /\ ((d <= 0)%Qc ->
      forall p, p ∈ Projection.buildProjectionSeries (Fin s) (Fin d) m ->
        (balance p <=? Fin s)%num = true).
Proof.
  intros Hm. split; [|split].
  - rewrite (buildProjectionSeries_lookup _ _ m 0) by lia.
    change (Z.of_nat 0) with 0%Z. unfold of_Z. cbn [add mul].
    do 3 f_equal. rewrite Qc_of_Z_0. ring.
  - intros Hd p Hp. apply series_point_inv in Hp as [Hk ->].
    cbn [add mul of_Z]. apply leb_Fin.
    pose proof (Qcmult_nonneg _ _ Hd (Qc_of_Z_nonneg (month p) (proj1 Hk))).
    qc_lra.
  - intros Hd p Hp. apply series_point_inv in Hp as [Hk ->].
    cbn [add mul of_Z]. apply leb_Fin.
    pose proof (Qcmult_nonneg (- d) _ (Qcopp_le_compat _ _ Hd)
                  (Qc_of_Z_nonneg (month p) (proj1 Hk))) as H.
    qc_lra.
Qed.

Lemma series_is_linear_witness :
  Projection.buildProjectionSeries (Fin (Q2Qc 1000)) (Fin (Q2Qc (-200))) 3
    !! 0%nat
  = Some {| month := 0; balance := Fin (Q2Qc 1000) |}.
Proof.
  refine (proj1 (series_is_linear (Q2Qc 1000) (Q2Qc (-200)) 3 _)). lia.
Defined.

(** ** The tax schedule, band by band *)

(** As [qc_to_q], with the inverses of constants evaluated for [lra]. *)
Ltac qc_lra_inv :=
  first [apply Qc_is_canon | idtac]; qc_to_q;
  repeat match goal with
  | |- context [Qinv (Qmake ?n ?d)] =>
      let v := eval vm_compute in (Qinv (Qmake n d)) in
      change (Qinv (Qmake n d)) with v in *
  | H : context [Qinv (Qmake ?n ?d)] |- _ =>
      let v := eval vm_compute in (Qinv (Qmake n d)) in
      change (Qinv (Qmake n d)) with v in *
  end;
  lra.

Section TaxBands.
Local Open Scope Qc_scope.

Lemma taxableIncome_below (a : Qc) :
  a <= Q2Qc 12570 -> Spec.taxableIncome a = 0.
Proof.
  intros H. unfold Spec.taxableIncome, Spec.allowance.
  split_minmax; qc_lra_inv.
Qed.

Lemma taxableIncome_full_allowance (a : Qc) :
  Q2Qc 12570 <= a -> a <= Q2Qc 100000 ->
  Spec.taxableIncome a = a - Q2Qc 12570.
Proof.
  intros H1 H2. unfold Spec.taxableIncome, Spec.allowance.
  split_minmax; qc_lra_inv.
Qed.

Lemma taxableIncome_taper (a : Qc) :
  Q2Qc 100000 <= a -> a <= Q2Qc 125140 ->
  Spec.taxableIncome a = a * Q2Qc 1.5 - Q2Qc 62570.
Proof.
  intros H1 H2. unfold Spec.taxableIncome, Spec.allowance.
  split_minmax; qc_lra_inv.
Qed.

Lemma taxableIncome_no_allowance (a : Qc) :
  Q2Qc 125140 <= a -> Spec.taxableIncome a = a.
Proof.
  intros H. unfold Spec.taxableIncome, Spec.allowance.
  split_minmax; qc_lra_inv.
Qed.

Lemma incomeTax_basic (t : Qc) :
  0 <= t -> t <= Q2Qc 37700 -> Spec.incomeTax t = t * Q2Qc 0.2.
Proof.
  intros H1 H2. unfold Spec.incomeTax. split_minmax; qc_lra_inv.
Qed.

Lemma incomeTax_higher (t : Qc) :
  Q2Qc 37700 <= t -> t <= Q2Qc 125140 ->
  Spec.incomeTax t = Q2Qc 7540 + (t - Q2Qc 37700) * Q2Qc 0.4.
Proof.
  intros H1 H2. unfold Spec.incomeTax. split_minmax; qc_lra_inv.
Qed.

Lemma incomeTax_additional (t : Qc) :
  Q2Qc 125140 <= t ->
  Spec.incomeTax t = Q2Qc 42516 + (t - Q2Qc 125140) * Q2Qc 0.45.
Proof.
  intros H. unfold Spec.incomeTax. split_minmax; qc_lra_inv.
Qed.

Lemma nationalInsurance_main (a : Qc) :
  Q2Qc 12570 <= a -> a <= Q2Qc 50270 ->
  Spec.nationalInsurance a = (a - Q2Qc 12570) * Q2Qc 0.08.
Proof.
  intros H1 H2. unfold Spec.nationalInsurance.
  destruct (decide (Q2Qc 12570 < a)) as [H|H].
  - split_minmax; qc_lra_inv.
  - apply Qcnot_lt_le in H. qc_lra_inv.
Qed.

Lemma nationalInsurance_upper (a : Qc) :
  Q2Qc 50270 <= a ->
  Spec.nationalInsurance a = Q2Qc 3016 + (a - Q2Qc 50270) * Q2Qc 0.02.
Proof.
  intros H1. unfold Spec.nationalInsurance.
  destruct (decide (Q2Qc 12570 < a)) as [H|H].
  - split_minmax; qc_lra_inv.
  - apply Qcnot_lt_le in H. qc_lra_inv.
Qed.

(** The schedule in closed form on each of its five stretches. *)
Lemma annualTax_zero (a : Qc) : a <= Q2Qc 12570 -> Spec.annualTax a = 0.
Proof.
  intros H. unfold Spec.annualTax.
  rewrite taxableIncome_below, nationalInsurance_below by done.
  rewrite incomeTax_basic; [qc_lra_inv|apply Qcle_refl|qc_lra_inv].
Qed.

End TaxBands.

Section TaxStretches.
Local Open Scope Qc_scope.

Lemma annualTax_basic_band (a : Qc) :
  Q2Qc 12570 <= a -> a <= Q2Qc 50270 ->
  Spec.annualTax a = (a - Q2Qc 12570) * Q2Qc 0.28.
Proof.
  intros H1 H2. unfold Spec.annualTax.
  rewrite taxableIncome_full_allowance; [|done|qc_lra_inv].
  rewrite incomeTax_basic; [|qc_lra_inv..].
  rewrite nationalInsurance_main by done. qc_lra_inv.
Qed.

Lemma annualTax_higher_band (a : Qc) :
  Q2Qc 50270 <= a -> a <= Q2Qc 100000 ->
  Spec.annualTax a = Q2Qc 10556 + (a - Q2Qc 50270) * Q2Qc 0.42.
Proof.
  intros H1 H2. unfold Spec.annualTax.
  rewrite taxableIncome_full_allowance; [|qc_lra_inv|done].
  rewrite incomeTax_higher; [|qc_lra_inv..].
  rewrite nationalInsurance_upper by done. qc_lra_inv.
Qed.

Lemma annualTax_taper_band (a : Qc) :
  Q2Qc 100000 <= a -> a <= Q2Qc 125140 ->
  Spec.annualTax a = Q2Qc 31442.6 + (a - Q2Qc 100000) * Q2Qc 0.62.
Proof.
  intros H1 H2. unfold Spec.annualTax.
  rewrite taxableIncome_taper by done.
  rewrite incomeTax_higher; [|qc_lra_inv..].
  rewrite nationalInsurance_upper by qc_lra_inv. qc_lra_inv.
Qed.

Lemma annualTax_additional_band (a : Qc) :
  Q2Qc 125140 <= a ->
  Spec.annualTax a = Q2Qc 47029.4 + (a - Q2Qc 125140) * Q2Qc 0.47.
Proof.
  intros H1. unfold Spec.annualTax.
  rewrite taxableIncome_no_allowance by done.
  rewrite incomeTax_additional by done.
  rewrite nationalInsurance_upper by qc_lra_inv. qc_lra_inv.
Qed.

Lemma annualTax_cases (a : Qc) :
  (a <= Q2Qc 12570 /\ Spec.annualTax a = 0)
  \/ (Q2Qc 12570 <= a <= Q2Qc 50270
      /\ Spec.annualTax a = (a - Q2Qc 12570) * Q2Qc 0.28)
  \/ (Q2Qc 50270 <= a <= Q2Qc 100000
      /\ Spec.annualTax a = Q2Qc 10556 + (a - Q2Qc 50270) * Q2Qc 0.42)
  \/ (Q2Qc 100000 <= a <= Q2Qc 125140
      /\ Spec.annualTax a = Q2Qc 31442.6 + (a - Q2Qc 100000) * Q2Qc 0.62)
  \/ (Q2Qc 125140 <= a
      /\ Spec.annualTax a = Q2Qc 47029.4 + (a - Q2Qc 125140) * Q2Qc 0.47).
Proof.
  destruct (Qclt_le_dec (Q2Qc 12570) a) as [H1%Qclt_le_weak|H1];
    [|left; split; [done|by apply annualTax_zero]].
  right.
  destruct (Qclt_le_dec (Q2Qc 50270) a) as [H2%Qclt_le_weak|H2];
    [|left; split; [done|by apply annualTax_basic_band]].
  right.
  destruct (Qclt_le_dec (Q2Qc 100000) a) as [H3%Qclt_le_weak|H3];
    [|left; split; [done|by apply annualTax_higher_band]].
  right.
  destruct (Qclt_le_dec (Q2Qc 125140) a) as [H4%Qclt_le_weak|H4];
    [|left; split; [done|by apply annualTax_taper_band]].
  right. split; [done|by apply annualTax_additional_band].
Qed.

Lemma annualTax_above_threshold (a : Qc) :
  Q2Qc 12570 < a -> 0 < Spec.annualTax a.
Proof.
  intros Ha.
  destruct (annualTax_cases a)
    as [[H ->]|[[[H H'] ->]|[[[H H'] ->]|[[[H H'] ->]|[H ->]]]]];
  qc_lra_inv.
Qed.

Lemma annualTax_below_income (a : Qc) : 0 < a -> Spec.annualTax a < a.
Proof.
  intros Ha.
  destruct (annualTax_cases a)
    as [[H ->]|[[[H H'] ->]|[[[H H'] ->]|[[[H H'] ->]|[H ->]]]]];
  qc_lra_inv.
Qed.

End TaxStretches.

(** The tax-free threshold: on real incomes [calculateAnnualTax] is 0 up
    to 12570 and greater than 0 above it. *)
Theorem annualTax_zero_threshold (a : Qc) :
  ((a <= Q2Qc 12570)%Qc -> Tax.calculateAnnualTax (Fin a) = lit 0)
  /\ ((Q2Qc 12570 < a)%Qc ->
      (Tax.calculateAnnualTax (Fin a) >? lit 0)%num = true).
Proof.
  rewrite calculateAnnualTax_Fin. unfold lit. split.
  - intros H. f_equal. by apply annualTax_zero.
  - intros H. apply gtb_Fin. by apply annualTax_above_threshold.
Qed.

Lemma annualTax_zero_threshold_witness :
  Tax.calculateAnnualTax (Fin (Q2Qc 12000)) = lit 0
  /\ (Tax.calculateAnnualTax (Fin (Q2Qc 12570.01)) >? lit 0)%num = true.
Proof.
  split.
  - refine (proj1 (annualTax_zero_threshold (Q2Qc 12000)) _).
    vm_compute. discriminate.
  - refine (proj2 (annualTax_zero_threshold (Q2Qc 12570.01)) _).
    vm_compute. reflexivity.
Defined.

(** The tax on a positive real income is less than the income. *)
Theorem annualTax_less_than_income (a : Qc) :
  (0 < a)%Qc -> (Tax.calculateAnnualTax (Fin a) <? Fin a)%num = true.
Proof.
  intros Ha. rewrite calculateAnnualTax_Fin. cbn [ltb].
  by apply Qcltb_lt, annualTax_below_income.
Qed.

Lemma annualTax_less_than_income_witness :
  (Tax.calculateAnnualTax (Fin (Q2Qc 110000)) <? Fin (Q2Qc 110000))%num = true.
Proof. apply annualTax_less_than_income. vm_compute. reflexivity. Defined.

(** ** Net income *)

Section NetFacts.
Local Open Scope num_scope.

Lemma netMonthly_Fin (st : State) (a : Qc) :
  Income.getAnnualIncome st = Some (Fin a) ->
  exists r,
    Income.calculateLocally st = Some r
    /\ grossMonthly r = Fin (a / Q2Qc 12)%Qc
    /\ netMonthly r
       = Fin (a / Q2Qc 12
              - (if taxToggle_checked st
                 then Spec.annualTax a / Q2Qc 12 else 0))%Qc.
Proof.
  intros H. eexists. split; [by apply calculateLocally_Some|].
  cbn [grossMonthly netMonthly].
  rewrite div12_Fin. split; [done|].
  destruct (taxToggle_checked st); [|done].
  by rewrite calculateAnnualTax_Fin, div12_Fin.
Qed.

Lemma net_after_tax (a ta : Qc) :
  (0 < a)%Qc -> (0 <= ta)%Qc -> (ta < a)%Qc ->
  (0 <= a / Q2Qc 12 - ta / Q2Qc 12)%Qc
  /\ (a / Q2Qc 12 - ta / Q2Qc 12 <= a / Q2Qc 12)%Qc.
Proof. intros H1 H3 H4. split; qc_lra_inv. Qed.

Lemma net_without_tax (a : Qc) :
  (0 < a)%Qc ->
  (0 <= a / Q2Qc 12 - 0)%Qc
  /\ (a / Q2Qc 12 - 0 <= a / Q2Qc 12)%Qc
  /\ (a / Q2Qc 12 - 0 = a / Q2Qc 12)%Qc.
Proof. intros H1. repeat split; qc_lra_inv. Qed.

End NetFacts.

(** For a result on a real income, the net monthly income is a real
    number between 0 and the gross monthly income, and it is the gross
    monthly income when the tax switch is off. *)
Theorem net_between_zero_and_gross (st : State) (r : CalculationResult)
    (a : Qc) :
  Income.calculateLocally st = Some r ->
  grossAnnual r = Fin a ->
  exists g n : Qc,
    grossMonthly r = Fin g /\ netMonthly r = Fin n
    /\ (0 <= n)%Qc /\ (n <= g)%Qc
    /\ (taxEnabled r = false -> n = g).
Proof.
  intros Hr Ha.
  destruct (calculateLocally_inv st r Hr) as (v & Hv & Hpos & Er).
  assert (v = Fin a) as -> by (rewrite Er in Ha; exact Ha).
  destruct (netMonthly_Fin st a Hv) as (r' & Hr' & Hg & Hn).
  assert (r' = r) as -> by congruence.
  eexists _, _. split; [exact Hg|]. split; [exact Hn|].
  assert (Htax : taxEnabled r = taxToggle_checked st) by (by rewrite Er).
  rewrite Htax. simpl in Hpos.
  destruct (taxToggle_checked st).
  - destruct (net_after_tax a (Spec.annualTax a) Hpos (annualTax_nonneg a)
                (annualTax_below_income a Hpos)) as [H1 H2].
    split; [done|]. split; [done|]. discriminate.
  - destruct (net_without_tax a Hpos) as (H1 & H2 & H3).
    split; [done|]. split; [done|]. intros _. exact H3.
Qed.

Lemma net_between_zero_and_gross_witness :
  let st := mkState false true (lit 50) (lit 40) NaN NaN [] [] 3 in
  exists (r : CalculationResult) (g n : Qc),
    Income.calculateLocally st = Some r
    /\ grossMonthly r = Fin g /\ netMonthly r = Fin n
    /\ (0 <= n)%Qc /\ (n <= g)%Qc.
Proof.
  cbn zeta.
  destruct (Income.calculateLocally
              (mkState false true (lit 50) (lit 40) NaN NaN [] [] 3))
    as [r|] eqn:E; [|vm_compute in E; discriminate E].
  assert (Ha : grossAnnual r = Fin (Q2Qc 50 * Q2Qc 40 * Q2Qc 52)%Qc).
  { vm_compute in E. injection E as <-. reflexivity. }
  destruct (net_between_zero_and_gross _ r _ E Ha)
    as (g & n & Hg & Hn & H0 & H1 & _).
  exists r, g, n. repeat split; assumption.
Defined.

(** The result depends on the state only through the income resolved and
    the tax switch: the ledgers, the balance and the horizon do not matter,
    and an hourly rate and weekly hours that are both [> 0] give the same
    result as their product times 52 entered as annual salary. *)
Theorem calculateLocally_depends_on_income (st1 st2 : State) :
  taxToggle_checked st1 = taxToggle_checked st2 ->
  (Income.getAnnualIncome st1 = Income.getAnnualIncome st2 ->
     Income.calculateLocally st1 = Income.calculateLocally st2)
  /\ (toggle_checked st1 = false -> toggle_checked st2 = true ->
      Spec.positive (hourlyRate st1) -> Spec.positive (hoursPerWeek st1) ->
      annualSalary st2 = (hourlyRate st1 * hoursPerWeek st1 * lit 52)%num ->
      Income.calculateLocally st1 = Income.calculateLocally st2).
Proof.
  intros Htax.
  assert (Hgen : Income.getAnnualIncome st1 = Income.getAnnualIncome st2 ->
            Income.calculateLocally st1 = Income.calculateLocally st2).
  { intros H. destruct (Income.getAnnualIncome st1) as [v|] eqn:E1.
    - symmetry in H.
      by rewrite (calculateLocally_Some st1 v E1),
        (calculateLocally_Some st2 v H), Htax.
    - symmetry in H.
      by rewrite (calculateLocally_None st1 E1), (calculateLocally_None st2 H). }
  split; [exact Hgen|].
  intros Hm1 Hm2 Hr Hh Hs. apply Hgen.
  rewrite (getAnnualIncome_hourly_present st1 Hm1 Hr Hh).
  rewrite (getAnnualIncome_annual_present st2 Hm2); [by rewrite Hs|].
  rewrite Hs. apply positive_mul; [by apply positive_mul|].
  vm_compute. reflexivity.
Qed.

Lemma calculateLocally_depends_on_income_witness :
  Income.calculateLocally
    (mkState true true NaN NaN (lit 30000) NaN [] [] 3)
  = Income.calculateLocally
      (mkState true true (lit 7) NaN (lit 30000) (lit 250)
         [mkEntry "1730000000000" "Gym" (lit 25)] [] 12).
Proof.
  refine (proj1 (calculateLocally_depends_on_income _ _ _) _); reflexivity.
Defined.

(** ** Ledger actions and the rest of the state *)

Section FrameFacts.
Local Open Scope num_scope.

(** The fields of the state other than the two ledgers. *)
Lemma step_keeps_form (st : State) (a : Session.Action) :
  toggle_checked (Session.step st a) = toggle_checked st
  /\ taxToggle_checked (Session.step st a) = taxToggle_checked st
  /\ hourlyRate (Session.step st a) = hourlyRate st
  /\ hoursPerWeek (Session.step st a) = hoursPerWeek st
  /\ annualSalary (Session.step st a) = annualSalary st
  /\ currentBalance (Session.step st a) = currentBalance st
  /\ selectedProjectionMonths (Session.step st a)
     = selectedProjectionMonths st.
Proof.
  destruct a as [n x now|n x now|id0|id0]; simpl.
  - unfold Ledger.addSubscription. cbn zeta.
    by destruct (Ledger.rejected _ _).
  - unfold Ledger.addAnnualCost. cbn zeta.
    by destruct (Ledger.rejected _ _).
  - unfold Ledger.removeSubscription. cbn zeta. by destruct (_ =? _)%Z.
  - unfold Ledger.removeAnnualCost. cbn zeta. by destruct (_ =? _)%Z.
Qed.

Lemma run_keeps_form (acts : list Session.Action) (st : State) :
  toggle_checked (Session.run st acts) = toggle_checked st
  /\ taxToggle_checked (Session.run st acts) = taxToggle_checked st
  /\ hourlyRate (Session.run st acts) = hourlyRate st
  /\ hoursPerWeek (Session.run st acts) = hoursPerWeek st
  /\ annualSalary (Session.run st acts) = annualSalary st
  /\ currentBalance (Session.run st acts) = currentBalance st
  /\ selectedProjectionMonths (Session.run st acts)
     = selectedProjectionMonths st.
Proof.
  revert st. induction acts as [|a acts IH]; intros st; [done|].
  change (Session.run st (a :: acts))
    with (Session.run (Session.step st a) acts).
  destruct (IH (Session.step st a)) as (H1 & H2 & H3 & H4 & H5 & H6 & H7).
  destruct (step_keeps_form st a) as (G1 & G2 & G3 & G4 & G5 & G6 & G7).
  rewrite H1, H2, H3, H4, H5, H6, H7. done.
Qed.

Lemma div12_add (x y : number) :
  (x + y) / lit 12 = x / lit 12 + y / lit 12.
Proof.
  destruct x as [| | |a], y as [| | |b]; try reflexivity.
  cbn [add]. rewrite !div12_Fin. cbn [add]. f_equal.
  unfold Qcdiv. ring.
Qed.

Lemma sub_add_swap (x s a y : number) :
  x - (s + y) - a = x - s - a - y.
Proof.
  rewrite !sub_sub_add. f_equal.
  rewrite <- !add_assoc. f_equal. apply add_comm.
Qed.

End FrameFacts.

(** Adds and removes touch the two ledgers only: after any sequence of
    them the income result and the clamped balance are the ones before,
    and so are the mode, the tax switch and the horizon. *)
Theorem ledger_actions_keep_income (st : State) (acts : list Session.Action) :
  Income.getAnnualIncome (Session.run st acts) = Income.getAnnualIncome st
  /\ Income.calculateLocally (Session.run st acts)
     = Income.calculateLocally st
  /\ Projection.getCurrentBalance (Session.run st acts)
     = Projection.getCurrentBalance st
  /\ selectedProjectionMonths (Session.run st acts)
     = selectedProjectionMonths st.
Proof.
  destruct (run_keeps_form acts st) as (H1 & H2 & H3 & H4 & H5 & H6 & H7).
  assert (Hinc : Income.getAnnualIncome (Session.run st acts)
                 = Income.getAnnualIncome st).
  { unfold Income.getAnnualIncome. cbn zeta. by rewrite H1, H3, H4, H5. }
  split; [exact Hinc|]. split; [|split; [|exact H7]].
  - unfold Income.calculateLocally. cbn zeta. by rewrite Hinc, H2.
  - unfold Projection.getCurrentBalance. cbn zeta. by rewrite H6.
Qed.

(** In the exact arithmetic of the model an accepted add lowers the
    disposable income by the amount added, or a twelfth of it. *)
Lemma disposable_after_add (st : State) (r : CalculationResult)
    (n : string) (x : number) (now : Z) :
  Ledger.trim n <> EmptyString -> Spec.positive x ->
  Projection.getDisposableMonthly
    (Ledger.addSubscription n x now st) (Some r)
  = (Projection.getDisposableMonthly st (Some r) - x)%num
  /\ Projection.getDisposableMonthly
       (Ledger.addAnnualCost n x now st) (Some r)
     = (Projection.getDisposableMonthly st (Some r) - x / lit 12)%num.
Proof.
  intros Hn Hx.
  rewrite addSubscription_accepted, addAnnualCost_accepted by done.
  unfold Projection.getDisposableMonthly, Ledger.getAnnualCostsMonthlyTotal,
    Ledger.getSubscriptionsTotal, Ledger.getAnnualCostsAnnualTotal.
  cbn. rewrite !foldl_snoc. cbn [amount]. split.
  - apply sub_add_swap.
  - rewrite div12_add. by rewrite !sub_sub_add, add_assoc.
Qed.

(** An accepted add never raises the disposable income: after a new
    subscription or a new annual cost, the disposable income computed for a
    result is at most what it was before, or it is [NaN]. *)
Theorem add_never_raises_disposable (st : State) (r : CalculationResult)
    (n : string) (x : number) (now : Z) :
  Ledger.trim n <> EmptyString -> Spec.positive x ->
  (Projection.getDisposableMonthly
     (Ledger.addSubscription n x now st) (Some r) = NaN
   \/ (Projection.getDisposableMonthly
         (Ledger.addSubscription n x now st) (Some r)
       <=? Projection.getDisposableMonthly st (Some r))%num = true)
  /\ (Projection.getDisposableMonthly
        (Ledger.addAnnualCost n x now st) (Some r) = NaN
      \/ (Projection.getDisposableMonthly
            (Ledger.addAnnualCost n x now st) (Some r)
          <=? Projection.getDisposableMonthly st (Some r))%num = true).
Proof.
  intros Hn Hx.
  destruct (disposable_after_add st r n x now Hn Hx) as [-> ->].
  split; apply sub_nonneg_le.
  - by apply positive_nonneg.
  - by apply nonneg_div12, positive_nonneg.
Qed.

Lemma add_never_raises_disposable_witness :
  let st := mkState true false NaN NaN (lit 12000) NaN [] [] 3 in
  let r := mkResult (lit 12000) (lit 1000) (lit 0) (lit 1000) false in
  (Projection.getDisposableMonthly
     (Ledger.addSubscription "Rent" (lit 1200) 1730000000000 st) (Some r)
   = NaN
   \/ (Projection.getDisposableMonthly
         (Ledger.addSubscription "Rent" (lit 1200) 1730000000000 st) (Some r)
       <=? Projection.getDisposableMonthly st (Some r))%num = true)
  /\ (Projection.getDisposableMonthly
        (Ledger.addAnnualCost "Rent" (lit 1200) 1730000000000 st) (Some r)
      = NaN
      \/ (Projection.getDisposableMonthly
            (Ledger.addAnnualCost "Rent" (lit 1200) 1730000000000 st)
            (Some r)
          <=? Projection.getDisposableMonthly st (Some r))%num = true).
Proof.
  cbn zeta. apply add_never_raises_disposable.
  - vm_compute. discriminate.
  - vm_compute. reflexivity.
Defined.

(** While the ids of a ledger are pairwise distinct, a second remove of the
    same id changes nothing. *)
Theorem remove_twice (st : State) (id0 : string) :
  (NoDup (id <$> subscriptions st) ->
     Ledger.removeSubscription id0 (Ledger.removeSubscription id0 st)
     = Ledger.removeSubscription id0 st)
  /\ (NoDup (id <$> annualCosts st) ->
      Ledger.removeAnnualCost id0 (Ledger.removeAnnualCost id0 st)
      = Ledger.removeAnnualCost id0 st).
Proof.
  split; intros Hnd.
  - destruct (decide (Exists (fun e => id e = id0) (subscriptions st)))
      as [H|H].
    + destruct (first_with_id id0 _ H) as (l1 & e & l2 & Hl & Hl1 & He).
      rewrite (removeSubscription_present id0 st l1 e l2 Hl Hl1 He).
      apply removeSubscription_absent. cbn.
      rewrite Hl, fmap_app in Hnd. cbn in Hnd.
      apply NoDup_app in Hnd as (_ & _ & [Hnotin _]%NoDup_cons).
      subst id0. apply Forall_app_2; [done|]. by apply fresh_id_Forall.
    + apply not_Exists_Forall in H; [|intros ?; apply _].
      rewrite (removeSubscription_absent id0 st H).
      exact (removeSubscription_absent id0 st H).
  - destruct (decide (Exists (fun e => id e = id0) (annualCosts st)))
      as [H|H].
    + destruct (first_with_id id0 _ H) as (l1 & e & l2 & Hl & Hl1 & He).
      rewrite (removeAnnualCost_present id0 st l1 e l2 Hl Hl1 He).
      apply removeAnnualCost_absent. cbn.
      rewrite Hl, fmap_app in Hnd. cbn in Hnd.
      apply NoDup_app in Hnd as (_ & _ & [Hnotin _]%NoDup_cons).
      subst id0. apply Forall_app_2; [done|]. by apply fresh_id_Forall.
    + apply not_Exists_Forall in H; [|intros ?; apply _].
      rewrite (removeAnnualCost_absent id0 st H).
      exact (removeAnnualCost_absent id0 st H).
Qed.

Lemma remove_twice_witness :
  let st :=
    set_subscriptions
      [mkEntry "1" "Gym" (lit 25); mkEntry "2" "Music" (lit 10)]
      Session.initial in
  Ledger.removeSubscription "2" (Ledger.removeSubscription "2" st)
  = Ledger.removeSubscription "2" st.
Proof.
  cbn zeta. apply (proj1 (remove_twice _ "2")).
  cbn. apply NoDup_cons. split.
  - intros H. apply list_elem_of_singleton in H. discriminate H.
  - apply NoDup_singleton.
Defined.
